(** * SAML identity-provider middleware (middleware/idp/middleware.go)

    A shallow embedding of the HTTP handlers of package [idp]
    ([NewMiddleware], [ServeMetadata], [ServeSSO]) together with models of
    the Go standard-library functions they call ([encoding/base64],
    [compress/flate], [text/template], [net/http], [net/url]), and the
    properties of the exchange that the specification states. *)

From Stdlib Require Import ZArith NArith List String Ascii Lia Bool.
From Stdlib.Strings Require Import Byte.
From stdpp Require Import gmap strings.
Import ListNotations.
Open Scope string_scope.
Open Scope list_scope.

(** ** Go values

    A Go [string] is a [string]; a Go [[]byte] is a [list byte].  The
    conversions [[]byte(s)] and [string(b)] are [list_byte_of_string] and
    [string_of_list_byte]. *)

(** Go's [error] values that reach the handlers.  The input offsets that
    [base64.CorruptInputError] and [flate.CorruptInputError] carry are not
    modelled: no handler inspects them. *)
Inductive error : Type :=
  | base64_CorruptInputError
  | flate_CorruptInputError
  | io_ErrUnexpectedEOF
  | flate_InternalError (msg : string)
  | errors_New (msg : string).

(** A Go call returning [(T, error)]: either the value, or a non-nil error. *)
Inductive result (A : Type) : Type :=
  | Ok (a : A)
  | Err (err : error).
Arguments Ok {A} a.
Arguments Err {A} err.

(** The double quote and the newline, for the literals that contain them. *)
Definition dq : string := String "034"%char EmptyString.
Definition nl : string := String "010"%char EmptyString.

(** ** encoding/base64, [StdEncoding] *)
Module base64.
Local Open Scope N_scope.

(** [encodeStd], the standard alphabet. *)
Definition encodeStd : list byte :=
  list_byte_of_string
    "ABCDEFGHIJKLMNOPQRSTUVWXYZabcdefghijklmnopqrstuvwxyz0123456789+/".

(** [StdPadding]. *)
Definition padChar : byte := "="%byte.

(** [enc.encode[v]] for a 6-bit value. *)
Definition encodeChar (v : N) : byte := nth (N.to_nat v) encodeStd x00.

Fixpoint index_of (c : byte) (l : list byte) (i : N) : option N :=
  match l with
  | [] => None
  | x :: l' => if Byte.eqb x c then Some i else index_of c l' (N.succ i)
  end.

(** [enc.decodeMap[c]]: the 6-bit value of an alphabet character, [None]
    where Go's table holds [0xff]. *)
Definition decodeMap (c : byte) : option N := index_of c encodeStd 0.

(** [byte(v)]: the low eight bits. *)
Definition byte_of_N (v : N) : byte :=
  match Byte.of_N (N.land v 255) with
  | Some b => b
  | None => x00
  end.

(** [Encoding.Encode]: three input bytes give four characters; a final
    group of one or two bytes is padded with [=]. *)
Fixpoint Encode (src : list byte) : list byte :=
  match src with
  | [] => []
  | [a] =>
      let val := N.shiftl (Byte.to_N a) 16 in
      [ encodeChar (N.land (N.shiftr val 18) 63);
        encodeChar (N.land (N.shiftr val 12) 63);
        padChar; padChar ]
  | [a; b] =>
      let val := N.lor (N.shiftl (Byte.to_N a) 16) (N.shiftl (Byte.to_N b) 8) in
      [ encodeChar (N.land (N.shiftr val 18) 63);
        encodeChar (N.land (N.shiftr val 12) 63);
        encodeChar (N.land (N.shiftr val 6) 63);
        padChar ]
  | a :: b :: c :: rest =>
      let val := N.lor (N.lor (N.shiftl (Byte.to_N a) 16)
                              (N.shiftl (Byte.to_N b) 8)) (Byte.to_N c) in
      encodeChar (N.land (N.shiftr val 18) 63)
      :: encodeChar (N.land (N.shiftr val 12) 63)
      :: encodeChar (N.land (N.shiftr val 6) 63)
      :: encodeChar (N.land val 63)
      :: Encode rest
  end.

(** [Encoding.EncodeToString]. *)
Definition EncodeToString (src : list byte) : string :=
  string_of_list_byte (Encode src).

Definition isNewline (c : byte) : bool :=
  Byte.eqb c x0a || Byte.eqb c x0d.

(** The loops "skip over newlines" of [decodeQuantum]. *)
Fixpoint skipNewlines (src : list byte) : list byte :=
  match src with
  | c :: rest => if isNewline c then skipNewlines rest else src
  | [] => []
  end.

(** [val := dbuf[0]<<18 | dbuf[1]<<12 | dbuf[2]<<6 | dbuf[3]] for the
    digits read so far (absent digits are zero). *)
Definition quantumVal (dbuf : list N) : N :=
  N.lor (N.lor (N.lor (N.shiftl (nth 0%nat dbuf 0) 18)
                      (N.shiftl (nth 1%nat dbuf 0) 12))
               (N.shiftl (nth 2%nat dbuf 0) 6)) (nth 3%nat dbuf 0).

(** The bytes that a quantum of [dlen] digits yields: [dlen - 1] bytes. *)
Definition quantumBytes (dbuf : list N) (dlen : nat) : list byte :=
  let val := quantumVal dbuf in
  firstn (dlen - 1)%nat
    [ byte_of_N (N.shiftr val 16); byte_of_N (N.shiftr val 8); byte_of_N val ].

(** After the padding of a final quantum only newlines may follow
    ("trailing garbage" otherwise). *)
Definition afterPadding (rest : list byte) (out : list byte) : result (list byte) :=
  match skipNewlines rest with
  | [] => Ok out
  | _ :: _ => Err base64_CorruptInputError
  end.

(** [Encoding.Decode]: the loop over [decodeQuantum], with [dbuf] the
    digits of the current quantum ([j = length dbuf]) and [out] the bytes
    decoded so far.  [\r] and [\n] are skipped; padding is required
    ([StdEncoding] has a padding character) and the encoding is not
    strict.  On an error Go also returns the bytes decoded before it; the
    handlers drop them, and so does the model. *)
Fixpoint decode (src : list byte) (dbuf : list N) (out : list byte)
  : result (list byte) :=
  match src with
  | [] =>
      match dbuf with
      | [] => Ok out
      | _ :: _ => Err base64_CorruptInputError
      end
  | c :: rest =>
      match decodeMap c with
      | Some v =>
          if Nat.eqb (length dbuf) 3%nat
          then decode rest [] (out ++ quantumBytes (dbuf ++ [v]) 4%nat)
          else decode rest (dbuf ++ [v]) out
      | None =>
          if isNewline c then decode rest dbuf out
          else if negb (Byte.eqb c padChar) then Err base64_CorruptInputError
          else
            match length dbuf with
            | 2%nat =>
                (* "==" is expected, the first "=" is already consumed *)
                match skipNewlines rest with
                | [] => Err base64_CorruptInputError
                | c2 :: rest2 =>
                    if Byte.eqb c2 padChar
                    then afterPadding rest2 (out ++ quantumBytes dbuf 2%nat)
                    else Err base64_CorruptInputError
                end
            | 3%nat => afterPadding rest (out ++ quantumBytes dbuf 3%nat)
            | _ => Err base64_CorruptInputError
            end
      end
  end.

(** [Encoding.DecodeString]. *)
Definition DecodeString (s : string) : result (list byte) :=
  decode (list_byte_of_string s) [] [].

End base64.

(** ** compress/flate: the decompressor behind [flate.NewReader] *)
Module flate.
Local Open Scope N_scope.

(** The bit reader: [bitbuf] holds the bits of [f.b] not yet consumed
    (least significant first, [f.nb = length bitbuf]) and [input] the
    bytes not yet read from [f.r]. *)
Record reader : Type := mkReader { bitbuf : list bool; input : list byte }.

Definition bits_of_byte (c : byte) : list bool :=
  map (N.testbit (Byte.to_N c)) [0; 1; 2; 3; 4; 5; 6; 7].

(** The number of bits left in the stream. *)
Definition avail (r : reader) : nat :=
  (length (bitbuf r) + 8 * length (input r))%nat.

(** [for f.nb < n { f.moreBits() }]: bytes are read one at a time until
    [n] bits are buffered; the end of the input is [io.ErrUnexpectedEOF]
    ([noEOF]). *)
Fixpoint fill (n : nat) (buf : list bool) (inp : list byte)
  : result (list bool * list byte) :=
  if (n <=? length buf)%nat then Ok (buf, inp)
  else match inp with
       | [] => Err io_ErrUnexpectedEOF
       | c :: inp' => fill n (buf ++ bits_of_byte c) inp'
       end.

(** The number whose bits, least significant first, are [bs]. *)
Fixpoint N_of_bits (bs : list bool) : N :=
  match bs with
  | [] => 0
  | b :: bs' => (if b then 1 else 0) + 2 * N_of_bits bs'
  end.

(** Read [n] bits: [f.b & (1<<n - 1)], then [f.b >>= n; f.nb -= n]. *)
Definition readBits (n : nat) (r : reader) : result (N * reader) :=
  match fill n (bitbuf r) (input r) with
  | Err e => Err e
  | Ok (buf, inp) => Ok (N_of_bits (firstn n buf), mkReader (skipn n buf) inp)
  end.

(** [huffmanDecoder]: [hmin] is the field [min]; the lookup tables
    [chunks] and [links] are represented by what they encode, the
    canonical code: [counts] gives the number of codes of each length
    [1 .. max] and [symbols] the symbols in code order. *)
Record huffmanDecoder : Type := mkHuffman {
  hmin : nat;
  counts : list N;
  symbols : list N
}.

Definition count_len (lengths : list N) (n : N) : N :=
  N.of_nat (length (List.filter (N.eqb n) lengths)).

(** The symbols whose code has length [n], in increasing order. *)
Fixpoint symbols_of_len (lengths : list N) (n : N) (sym : N) : list N :=
  match lengths with
  | [] => []
  | l :: rest =>
      if N.eqb l n then sym :: symbols_of_len rest n (N.succ sym)
      else symbols_of_len rest n (N.succ sym)
  end.

Definition lens_upto (max : N) : list N :=
  map N.of_nat (seq 1 (N.to_nat max)).

(** [huffmanDecoder.init]: [None] where Go returns [false].  The coding
    must be complete; the empty coding and the coding with one code of
    one bit are accepted. *)
Definition init (lengths : list N) : option huffmanDecoder :=
  let nz := List.filter (fun n => negb (N.eqb n 0)) lengths in
  let max := fold_right N.max 0 nz in
  let min := fold_right N.min max nz in
  if N.eqb max 0 then Some (mkHuffman 0 [] [])
  else
    let cnts := map (count_len lengths) (lens_upto max) in
    let code := fold_left (fun code c => 2 * code + c) cnts 0 in
    if negb (N.eqb code (2 ^ max)) && negb (N.eqb code 1 && N.eqb max 1)
    then None
    else Some (mkHuffman (N.to_nat min) cnts
                 (flat_map (fun n => symbols_of_len lengths n 0) (lens_upto max))).

(** Decoding one symbol bit by bit: [code] is the code read so far,
    [first] the first code of the current length and [index] the position
    of its symbol.  A sequence of [max] bits that is no code is
    [CorruptInputError]. *)
Fixpoint decodeSym (syms : list N) (cnts : list N) (code first index : N)
  (r : reader) : result (N * reader) :=
  match cnts with
  | [] => Err flate_CorruptInputError
  | count :: cnts' =>
      match readBits 1 r with
      | Err e => Err e
      | Ok (bit, r') =>
          let code := code + bit in
          if code <? first + count
          then Ok (nth (N.to_nat (index + (code - first))) syms 0, r')
          else decodeSym syms cnts' (2 * code) (2 * (first + count))
                 (index + count) r'
      end
  end.

(** [decompressor.huffSym]: at least [h.min] bits are read before the
    lookup, so a stream with fewer bits left ends in
    [io.ErrUnexpectedEOF]. *)
Definition huffSym (h : huffmanDecoder) (r : reader) : result (N * reader) :=
  if (avail r <? hmin h)%nat then Err io_ErrUnexpectedEOF
  else decodeSym (symbols h) (counts h) 0 0 0 r.

(** [fixedHuffmanDecoder] ([fixedHuffmanDecoderInit]). *)
Definition fixedLengths : list N :=
  repeat 8 144 ++ repeat 9 112 ++ repeat 7 24 ++ repeat 8 8.

Definition fixedHuffmanDecoder : huffmanDecoder :=
  match init fixedLengths with
  | Some h => h
  | None => mkHuffman 0 [] []
  end.

Definition codeOrder : list N :=
  [16; 17; 18; 0; 8; 7; 9; 6; 10; 5; 11; 4; 12; 3; 13; 2; 14; 1; 15].

(** Read [k] three-bit code lengths. *)
Fixpoint readCodeLens (k : nat) (r : reader) : result (list N * reader) :=
  match k with
  | O => Ok ([], r)
  | S k' =>
      match readBits 3 r with
      | Err e => Err e
      | Ok (v, r') =>
          match readCodeLens k' r' with
          | Err e => Err e
          | Ok (vs, r'') => Ok (v :: vs, r'')
          end
      end
  end.

Fixpoint index_where {A} (p : A -> bool) (l : list A) : option nat :=
  match l with
  | [] => None
  | x :: l' => if p x then Some O else option_map S (index_where p l')
  end.

(** [f.codebits]: the value read for [codeOrder[i]] at position
    [codeOrder[i]], zero for the positions not read. *)
Definition codebits (vs : list N) : list N :=
  map (fun sym =>
         match index_where (N.eqb sym) codeOrder with
         | Some i => nth i vs 0
         | None => 0
         end)
      (map N.of_nat (seq 0 19)).

(** The loop of [readHuffman] over the [nlit + ndist] code lengths, with
    [k] the number of lengths still to produce ([n - i]), [acc] the
    lengths produced ([f.bits[0:i]]) and [pend] the number of copies of
    [b] that a repeat code still has to write. *)
Fixpoint readLengths (h : huffmanDecoder) (k : nat) (pend : nat) (b : N)
  (acc : list N) (r : reader) : result (list N * reader) :=
  match k with
  | O => Ok (acc, r)
  | S k' =>
      match pend with
      | S p => readLengths h k' p b (acc ++ [b]) r
      | O =>
          match huffSym h r with
          | Err e => Err e
          | Ok (x, r1) =>
              if x <? 16 then readLengths h k' O 0 (acc ++ [x]) r1
              else
                let rep_nb_b :=
                  if x =? 16 then Ok (3, 2%nat, List.last acc 0)
                  else if x =? 17 then Ok (3, 3%nat, 0)
                  else if x =? 18 then Ok (11, 7%nat, 0)
                  else Err (flate_InternalError "unexpected length code") in
                match rep_nb_b with
                | Err e => Err e
                | Ok (rep0, nb, b') =>
                    if (x =? 16) && Nat.eqb (length acc) 0
                    then Err flate_CorruptInputError
                    else
                      match readBits nb r1 with
                      | Err e => Err e
                      | Ok (extra, r2) =>
                          let rep := N.to_nat (rep0 + extra) in
                          if (S k' <? rep)%nat then Err flate_CorruptInputError
                          else readLengths h k' (rep - 1) b' (acc ++ [b']) r2
                      end
                end
          end
      end
  end.

(** [decompressor.readHuffman]: the header of a dynamic block, giving the
    literal/length and the distance decoders. *)
Definition readHuffman (r : reader)
  : result (huffmanDecoder * huffmanDecoder * reader) :=
  match readBits 14 r with
  | Err e => Err e
  | Ok (hdr, r1) =>
      let nlit := N.land hdr 31 + 257 in
      let ndist := N.land (N.shiftr hdr 5) 31 + 1 in
      let nclen := N.land (N.shiftr hdr 10) 15 + 4 in
      if 286 <? nlit then Err flate_CorruptInputError
      else if 30 <? ndist then Err flate_CorruptInputError
      else
        match readCodeLens (N.to_nat nclen) r1 with
        | Err e => Err e
        | Ok (vs, r2) =>
            match init (codebits vs) with
            | None => Err flate_CorruptInputError
            | Some h1 =>
                match readLengths h1 (N.to_nat (nlit + ndist)) O 0 [] r2 with
                | Err e => Err e
                | Ok (bits, r3) =>
                    let litbits := firstn (N.to_nat nlit) bits in
                    match init litbits,
                          init (skipn (N.to_nat nlit) bits) with
                    | Some hl, Some hd =>
                        (* f.h1.min is raised to the length of the
                           end-of-block code *)
                        let eob := N.to_nat (nth 256 litbits 0) in
                        let hl' :=
                          if (hmin hl <? eob)%nat
                          then mkHuffman eob (counts hl) (symbols hl)
                          else hl in
                        Ok (hl', hd, r3)
                    | _, _ => Err flate_CorruptInputError
                    end
                end
            end
        end
  end.

(** The match length and the number of extra bits of a length symbol
    [257 <= v]; [None] for [v >= maxNumLit]. *)
Definition lengthCode (v : N) : option (N * nat) :=
  if v <? 265 then Some (v - 254, 0%nat)
  else if v <? 269 then Some (v * 2 - 519, 1%nat)
  else if v <? 273 then Some (v * 4 - 1057, 2%nat)
  else if v <? 277 then Some (v * 8 - 2149, 3%nat)
  else if v <? 281 then Some (v * 16 - 4365, 4%nat)
  else if v <? 285 then Some (v * 32 - 8861, 5%nat)
  else if v <? 286 then Some (258, 0%nat)
  else None.

(** The distance symbol: five reversed bits with the fixed coding
    ([f.hd == nil]), a Huffman symbol otherwise. *)
Definition readDistSym (hd : option huffmanDecoder) (r : reader)
  : result (N * reader) :=
  match hd with
  | None =>
      match fill 5 (bitbuf r) (input r) with
      | Err e => Err e
      | Ok (buf, inp) =>
          Ok (N_of_bits (rev (firstn 5 buf)), mkReader (skipn 5 buf) inp)
      end
  | Some h => huffSym h r
  end.

(** The distance of a distance symbol, with its extra bits. *)
Definition readDist (hd : option huffmanDecoder) (r : reader)
  : result (N * reader) :=
  match readDistSym hd r with
  | Err e => Err e
  | Ok (dist, r1) =>
      if dist <? 4 then Ok (dist + 1, r1)
      else if dist <? 30 then
        let nb := N.shiftr (dist - 2) 1 in
        let extra := N.shiftl (N.land dist 1) nb in
        match readBits (N.to_nat nb) r1 with
        | Err e => Err e
        | Ok (bits, r2) => Ok (2 ^ (nb + 1) + 1 + N.lor extra bits, r2)
        end
      else Err flate_CorruptInputError
  end.

(** [dictDecoder.writeCopy]: [len] bytes copied one by one from [dist]
    bytes back; [hist] is the output so far, most recent byte first. *)
Fixpoint writeCopy (len : nat) (dist : nat) (hist : list byte) : list byte :=
  match len with
  | O => hist
  | S len' => writeCopy len' dist (nth (dist - 1) hist x00 :: hist)
  end.

(** [f.step]: the decompressor is at the start of a block or inside a
    Huffman-coded block. *)
Inductive step : Type :=
  | nextBlock
  | huffmanBlock (hl : huffmanDecoder) (hd : option huffmanDecoder).

(** [decompressor.dataBlock] with [copyData]: a stored block. *)
Definition dataBlock (r : reader) (hist : list byte)
  : result (reader * list byte) :=
  match input r with
  | b0 :: b1 :: b2 :: b3 :: inp =>
      let n := N.lor (Byte.to_N b0) (N.shiftl (Byte.to_N b1) 8) in
      let nn := N.lor (Byte.to_N b2) (N.shiftl (Byte.to_N b3) 8) in
      if negb (nn =? N.lxor n 65535) then Err flate_CorruptInputError
      else if (length inp <? N.to_nat n)%nat then Err io_ErrUnexpectedEOF
      else Ok (mkReader [] (skipn (N.to_nat n) inp),
               rev (firstn (N.to_nat n) inp) ++ hist)
  | _ => Err io_ErrUnexpectedEOF
  end.

(** The loop of [decompressor.Read] over [f.step], for at most [fuel]
    steps; [None] when the steps are used up.  [final] is [f.final] and
    [hist] the output so far, most recent byte first.  When a final block
    is finished ([finishBlock] sets [io.EOF]) the output is complete;
    input after it is left unread. *)
Fixpoint run (fuel : nat) (st : step) (final : bool) (r : reader)
  (hist : list byte) : option (result (list byte)) :=
  match fuel with
  | O => None
  | S fuel' =>
      match st with
      | nextBlock =>
          match readBits 3 r with
          | Err e => Some (Err e)
          | Ok (hdr, r1) =>
              let final := N.testbit hdr 0 in
              let typ := N.shiftr hdr 1 in
              if typ =? 0 then
                match dataBlock r1 hist with
                | Err e => Some (Err e)
                | Ok (r2, hist') =>
                    if final then Some (Ok (rev hist'))
                    else run fuel' nextBlock final r2 hist'
                end
              else if typ =? 1 then
                run fuel' (huffmanBlock fixedHuffmanDecoder None) final r1 hist
              else if typ =? 2 then
                match readHuffman r1 with
                | Err e => Some (Err e)
                | Ok (hl, hd, r2) =>
                    run fuel' (huffmanBlock hl (Some hd)) final r2 hist
                end
              else Some (Err flate_CorruptInputError)
          end
      | huffmanBlock hl hd =>
          match huffSym hl r with
          | Err e => Some (Err e)
          | Ok (v, r1) =>
              if v <? 256 then
                run fuel' st final r1 (base64.byte_of_N v :: hist)
              else if v =? 256 then
                if final then Some (Ok (rev hist))
                else run fuel' nextBlock final r1 hist
              else
                match lengthCode v with
                | None => Some (Err flate_CorruptInputError)
                | Some (len0, n) =>
                    match readBits n r1 with
                    | Err e => Some (Err e)
                    | Ok (extra, r2) =>
                        match readDist hd r2 with
                        | Err e => Some (Err e)
                        | Ok (dist, r3) =>
                            if (length hist <? N.to_nat dist)%nat
                            then Some (Err flate_CorruptInputError)
                            else run fuel' st final r3
                                   (writeCopy (N.to_nat (len0 + extra))
                                      (N.to_nat dist) hist)
                        end
                    end
                end
          end
      end
  end.

(** Every step reads at least one bit, so [2 + avail r] steps are never
    used up (lemma [run_enough_fuel]). *)
Definition steps_for (data : list byte) : nat := (2 + 8 * length data)%nat.

(** [ioutil.ReadAll(flate.NewReader(bytes.NewBuffer(data)))]: the whole
    decompressed stream, or the error that ended the reading. *)
Definition ReadAll (data : list byte) : result (list byte) :=
  match run (steps_for data) nextBlock false (mkReader [] data) [] with
  | Some res => res
  | None => Err (flate_InternalError "unreachable")
  end.

End flate.

(** ** text/template

    The part of the template language that a form with three string
    fields uses: text, the actions [{{.Field}}] and [{{.Field | html}}],
    and [{{if .Field}} ... {{else}} ... {{end}}].  Any other action is
    reported by [Parse] as an error. *)
Module template.

(** A pipeline: a field of the data, optionally piped through the
    predefined function [html]. *)
Record Pipeline : Type := mkPipeline { field : string; html : bool }.

(** The parse tree ([parse.Node]). *)
#[warnings="-register-all"]
Inductive Node : Type :=
  | TextNode (text : string)
  | ActionNode (pipe : Pipeline)
  | IfNode (pipe : Pipeline) (thenList elseList : list Node).

Definition Template : Type := list Node.

(** The items of the lexer: text, and the inside of [{{ ... }}]. *)
Inductive item : Type :=
  | itemText (s : string)
  | itemAction (s : string).

Definition string_rev (s : string) : string :=
  string_of_list_ascii (rev (list_ascii_of_string s)).

(** [lex]: [acc] holds, reversed, the characters of the item being read
    and [inAction] tells whether a left delimiter is open. *)
Fixpoint lex (s : string) (inAction : bool) (acc : string)
  : result (list item) :=
  match s with
  | EmptyString =>
      if inAction then Err (errors_New "template: unclosed action")
      else Ok (match acc with
               | EmptyString => []
               | _ => [itemText (string_rev acc)]
               end)
  | String c rest =>
      match c, rest, inAction with
      | "{"%char, String "{"%char rest', false =>
          match lex rest' true EmptyString with
          | Err e => Err e
          | Ok items =>
              Ok (match acc with
                  | EmptyString => items
                  | _ => itemText (string_rev acc) :: items
                  end)
          end
      | "}"%char, String "}"%char rest', true =>
          match lex rest' false EmptyString with
          | Err e => Err e
          | Ok items => Ok (itemAction (string_rev acc) :: items)
          end
      | _, _, _ => lex rest inAction (String c acc)
      end
  end.

(** The words of an action, separated by spaces. *)
Fixpoint words (s : string) (cur : string) : list string :=
  match s with
  | EmptyString =>
      match cur with EmptyString => [] | _ => [string_rev cur] end
  | String c rest =>
      if Ascii.eqb c " "%char
      then match cur with
           | EmptyString => words rest EmptyString
           | _ => string_rev cur :: words rest EmptyString
           end
      else words rest (String c cur)
  end.

Definition parsePipeline (ws : list string) : option Pipeline :=
  match ws with
  | [String "."%char name] =>
      match name with
      | EmptyString => None
      | _ => Some (mkPipeline name false)
      end
  | [String "."%char name; "|"; "html"] =>
      match name with
      | EmptyString => None
      | _ => Some (mkPipeline name true)
      end
  | _ => None
  end.

(** An [{{if}}] whose [{{end}}] has not been read: its pipeline, the
    nodes of the enclosing list read before it, and its [then] list once
    [{{else}}] has been read. *)
Record frame : Type := mkFrame {
  fpipe : Pipeline;
  fouter : list Node;
  fthen : option (list Node)
}.

(** [parse]: [cur] is the list being built and [stack] the open
    [{{if}}] actions, innermost first. *)
Fixpoint parseItems (items : list item) (cur : list Node) (stack : list frame)
  : result Template :=
  match items with
  | [] =>
      match stack with
      | [] => Ok cur
      | _ :: _ => Err (errors_New "template: unexpected EOF")
      end
  | itemText s :: rest => parseItems rest (cur ++ [TextNode s]) stack
  | itemAction a :: rest =>
      match words a EmptyString with
      | ["end"] =>
          match stack with
          | [] => Err (errors_New "template: unexpected {{end}}")
          | f :: stack' =>
              let node :=
                match fthen f with
                | None => IfNode (fpipe f) cur []
                | Some th => IfNode (fpipe f) th cur
                end in
              parseItems rest (fouter f ++ [node]) stack'
          end
      | ["else"] =>
          match stack with
          | f :: stack' =>
              match fthen f with
              | None =>
                  parseItems rest []
                    (mkFrame (fpipe f) (fouter f) (Some cur) :: stack')
              | Some _ => Err (errors_New "template: unexpected {{else}}")
              end
          | [] => Err (errors_New "template: unexpected {{else}}")
          end
      | "if" :: ws =>
          match parsePipeline ws with
          | Some p => parseItems rest [] (mkFrame p cur None :: stack)
          | None => Err (errors_New "template: unsupported pipeline")
          end
      | ws =>
          match parsePipeline ws with
          | Some p => parseItems rest (cur ++ [ActionNode p]) stack
          | None => Err (errors_New "template: unsupported action")
          end
      end
  end.

(** [template.New(name).Parse(text)]. *)
Definition Parse (text : string) : result Template :=
  match lex text false EmptyString with
  | Err e => Err e
  | Ok items => parseItems items [] []
  end.

(** [template.HTMLEscapeString]. *)
Fixpoint HTMLEscapeString (s : string) : string :=
  match s with
  | EmptyString => EmptyString
  | String c rest =>
      (if Ascii.eqb c "034"%char then "&#34;"
       else if Ascii.eqb c "'"%char then "&#39;"
       else if Ascii.eqb c "&"%char then "&amp;"
       else if Ascii.eqb c "<"%char then "&lt;"
       else if Ascii.eqb c ">"%char then "&gt;"
       else if Ascii.eqb c "000"%char
            then String "239" (String "191" (String "189" EmptyString))
       else String c EmptyString) +:+ HTMLEscapeString rest
  end.

(** The data a template is executed on: a struct with string fields,
    given by its field lookup. *)
Definition Data : Type := string -> option string.

(** Evaluating a pipeline: the field's value, verbatim unless [html] is
    applied.  A field the struct does not have is an execution error. *)
Definition evalPipeline (p : Pipeline) (data : Data) : result string :=
  match data (field p) with
  | None => Err (errors_New ("template: can't evaluate field " +:+ field p))
  | Some v => Ok (if html p then HTMLEscapeString v else v)
  end.

(** [Template.Execute]: the output written to the buffer.  A string
    value is printed as it is ([fmt.Fprint]); an [{{if}}] holds for a
    non-empty string. *)
Fixpoint execNode (n : Node) (data : Data) : result string :=
  let execList :=
    fix execList (ns : list Node) : result string :=
      match ns with
      | [] => Ok EmptyString
      | n :: ns' =>
          match execNode n data with
          | Err e => Err e
          | Ok s1 =>
              match execList ns' with
              | Err e => Err e
              | Ok s2 => Ok (s1 +:+ s2)
              end
          end
      end in
  match n with
  | TextNode s => Ok s
  | ActionNode p => evalPipeline p data
  | IfNode p th el =>
      match evalPipeline p data with
      | Err e => Err e
      | Ok EmptyString => execList el
      | Ok _ => execList th
      end
  end.

Fixpoint execList (ns : list Node) (data : Data) : result string :=
  match ns with
  | [] => Ok EmptyString
  | n :: ns' =>
      match execNode n data with
      | Err e => Err e
      | Ok s1 =>
          match execList ns' data with
          | Err e => Err e
          | Ok s2 => Ok (s1 +:+ s2)
          end
      end
  end.

Definition Execute (t : Template) (data : Data) : result (list byte) :=
  match execList t data with
  | Err e => Err e
  | Ok s => Ok (list_byte_of_string s)
  end.

End template.

(** ** net/url *)
Module url.

(** [Values.Get]: the first value of the key, the empty string when the
    key has none.  [url.Values] is [map[string][]string]. *)
Definition Get (v : gmap string (list string)) (key : string) : string :=
  match v !! key with
  | Some (x :: _) => x
  | _ => EmptyString
  end.

End url.

(** ** net/http *)
Module http.

(** [*http.Request]: the handlers read [r.URL.Query()] only. *)
Record Request : Type := mkRequest {
  URL_Query : gmap string (list string)
}.

(** [http.ResponseWriter], as a recorder of what was written: the header
    map, the status line sent with the headers of that moment (if any),
    and the body. *)
Record ResponseWriter : Type := mkResponseWriter {
  Header : gmap string (list string);
  sent : option (nat * gmap string (list string));
  Body : list byte
}.

(** A response to which nothing has been written. *)
Definition NewRecorder : ResponseWriter :=
  mkResponseWriter ∅ None [].

(** [w.Header().Set(key, value)], for a key in canonical form. *)
Definition Header_Set (key value : string) (w : ResponseWriter)
  : ResponseWriter :=
  mkResponseWriter (<[key := [value]]> (Header w)) (sent w) (Body w).

(** [w.WriteHeader(code)]: the first call sends the status and the
    headers; later calls change nothing. *)
Definition WriteHeader (code : nat) (w : ResponseWriter) : ResponseWriter :=
  match sent w with
  | Some _ => w
  | None => mkResponseWriter (Header w) (Some (code, Header w)) (Body w)
  end.

(** [w.Write(b)]: sends the headers with status 200 if they have not
    been sent, then appends to the body. *)
Definition Write (b : list byte) (w : ResponseWriter) : ResponseWriter :=
  let w' := WriteHeader 200 w in
  mkResponseWriter (Header w') (sent w') (Body w' ++ b).

End http.

(** ** Package idp *)

(** A Go call that may panic. *)
Inductive go (A : Type) : Type :=
  | Return (a : A)
  | Panic (msg : string).
Arguments Return {A} a.
Arguments Panic {A} msg.

(** [redirectForm], the value the form template is executed on. *)
Record redirectForm : Type := mkRedirectForm {
  FormAction : string;
  RelayState : string;
  SAMLResponse : string
}.

(** The fields of [redirectForm] as the template engine finds them. *)
Definition redirectForm_data (form : redirectForm) : template.Data :=
  fun name =>
    if String.eqb name "FormAction" then Some (FormAction form)
    else if String.eqb name "RelayState" then Some (RelayState form)
    else if String.eqb name "SAMLResponse" then Some (SAMLResponse form)
    else None.

(** The fixed text of the redirect form, between the places where the
    values of the form go. *)
Definition formHead : string :=
  "<!DOCTYPE html>" +:+ nl +:+
  "<html>" +:+ nl +:+
  "<body>" +:+ nl +:+
  "<form method=" +:+ dq +:+ "post" +:+ dq +:+ " action=" +:+ dq.

Definition formPayload : string :=
  dq +:+ ">" +:+ nl +:+
  "<input type=" +:+ dq +:+ "hidden" +:+ dq +:+
  " name=" +:+ dq +:+ "SAMLResponse" +:+ dq +:+ " value=" +:+ dq.

Definition formPayloadEnd : string := dq +:+ " />" +:+ nl.

Definition relayHead : string :=
  "<input type=" +:+ dq +:+ "hidden" +:+ dq +:+
  " name=" +:+ dq +:+ "RelayState" +:+ dq +:+ " value=" +:+ dq.

Definition relayTail : string := dq +:+ " />".

Definition formTail : string :=
  nl +:+
  "<noscript><input type=" +:+ dq +:+ "submit" +:+ dq +:+
  " value=" +:+ dq +:+ "Continue" +:+ dq +:+ " /></noscript>" +:+ nl +:+
  "</form>" +:+ nl +:+
  "<script>document.forms[0].submit();</script>" +:+ nl +:+
  "</body>" +:+ nl +:+
  "</html>".

(** Modelled from the spec: [redirectFormTemplate], the constant that
    [ServeSSO] parses, is declared in another file of the package, which
    is not at hand.  The specification describes it (section 4.2): a form
    with [method="post"], [action] set to the form action, a hidden input
    [SAMLResponse], a hidden input [RelayState] only if the relay state is
    non-empty, an inline script that submits the form on load and a
    visible submit control as the fallback. *)
Definition redirectFormTemplate : string :=
  formHead +:+ "{{.FormAction}}" +:+
  formPayload +:+ "{{.SAMLResponse}}" +:+ formPayloadEnd +:+
  "{{if .RelayState}}" +:+ relayHead +:+ "{{.RelayState}}" +:+ relayTail +:+
  "{{end}}" +:+ formTail.

(** The parse tree of [redirectFormTemplate]. *)
Definition redirectFormTree : template.Template :=
  [ template.TextNode formHead;
    template.ActionNode (template.mkPipeline "FormAction" false);
    template.TextNode formPayload;
    template.ActionNode (template.mkPipeline "SAMLResponse" false);
    template.TextNode formPayloadEnd;
    template.IfNode (template.mkPipeline "RelayState" false)
      [ template.TextNode relayHead;
        template.ActionNode (template.mkPipeline "RelayState" false);
        template.TextNode relayTail ]
      [];
    template.TextNode formTail ].

(** [RenderRedirectForm] of section 4.2, with the values of the form put
    into the text as they are. *)
Definition RenderRedirectForm (form : redirectForm) : string :=
  formHead +:+ FormAction form +:+
  formPayload +:+ SAMLResponse form +:+ formPayloadEnd +:+
  match RelayState form with
  | EmptyString => EmptyString
  | _ => relayHead +:+ RelayState form +:+ relayTail
  end +:+ formTail.



(** The declarations that the handlers use and that middleware.go does
    not contain: the types and methods of package [saml], [encoding/xml]
    at those types, and the helper [writeErr] of package [idp]. *)
Class Externals : Type := {
  (** [saml.IdentityProvider]; a [*saml.IdentityProvider] is an
      [option], [None] being [nil]. *)
  IdentityProvider : Type;
  (** [saml.Session], the result of the authentication hook. *)
  Session : Type;
  AuthnRequest : Type;
  Response : Type;
  Metadata : Type;
  (** [saml.IdpAuthnRequest], with the composite literal that sets the
      fields [IDP], [HTTPRequest] and [Request]. *)
  IdpAuthnRequest : Type;
  newIdpAuthnRequest :
    option IdentityProvider -> http.Request -> AuthnRequest -> IdpAuthnRequest;
  (** The method [Metadata] of the identity provider. *)
  idp_Metadata : option IdentityProvider -> result Metadata;
  (** [MakeAssertion], [MarshalAssertion] and [MakeResponse] return an
      error or update their receiver. *)
  MakeAssertion : IdpAuthnRequest -> Session -> result IdpAuthnRequest;
  MarshalAssertion : IdpAuthnRequest -> result IdpAuthnRequest;
  MakeResponse : IdpAuthnRequest -> result IdpAuthnRequest;
  (** The field [Response], and the field path
      [Assertion.Subject.SubjectConfirmation.SubjectConfirmationData.Recipient]. *)
  get_Response : IdpAuthnRequest -> Response;
  get_Recipient : IdpAuthnRequest -> string;
  (** [xml.Unmarshal] into a [saml.AuthnRequest]. *)
  xml_Unmarshal : list byte -> result AuthnRequest;
  (** [xml.MarshalIndent(v, prefix, indent)]. *)
  xml_MarshalIndent_Metadata : Metadata -> string -> string -> result (list byte);
  xml_MarshalIndent_Response : Response -> string -> string -> result (list byte);
  (** [writeErr(w, err)], which writes the error response. *)
  writeErr : http.ResponseWriter -> error -> http.ResponseWriter
}.

Section Handlers.
Context {X : Externals}.

(** [Middleware]. *)
Record Middleware : Type := mkMiddleware {
  idp : option IdentityProvider
}.

(** [Authenticator]: the hook receives the response writer and the
    request, may write to the response, and returns a session or an
    error. *)
Definition Authenticator : Type :=
  http.ResponseWriter -> http.Request -> http.ResponseWriter * result Session.

(** What a handler does, in the order it does it: the calls it makes and
    their arguments. *)
Inductive Event : Type :=
  | Ev_authFn (r : http.Request)
  | Ev_Logf (format : string) (err : error)
  | Ev_base64_DecodeString (s : string)
  | Ev_flate_ReadAll (data : list byte)
  | Ev_xml_Unmarshal (buf : list byte)
  | Ev_MakeAssertion (req : IdpAuthnRequest) (sess : Session)
  | Ev_MarshalAssertion (req : IdpAuthnRequest)
  | Ev_MakeResponse (req : IdpAuthnRequest)
  | Ev_xml_MarshalIndent_Response (resp : Response)
  | Ev_template_Parse (text : string)
  | Ev_template_Execute (form : redirectForm)
  | Ev_idp_Metadata
  | Ev_xml_MarshalIndent_Metadata (md : Metadata)
  | Ev_Header_Set (key value : string)
  | Ev_Write (b : list byte)
  | Ev_writeErr (err : error).

(** The state a handler runs in: the response writer and the calls made
    so far. *)
Record Exchange : Type := mkExchange {
  rw : http.ResponseWriter;
  trace : list Event
}.

(** A handler computation: it changes the state and either goes on with a
    value or has returned from the handler ([None]). *)
Definition Handler (A : Type) : Type := Exchange -> Exchange * option A.

Definition ret {A} (a : A) : Handler A := fun s => (s, Some a).

Definition bind {A B} (c : Handler A) (k : A -> Handler B) : Handler B :=
  fun s =>
    match c s with
    | (s', Some a) => k a s'
    | (s', None) => (s', None)
    end.

(** The statement [return]. *)
Definition return_ {A} : Handler A := fun s => (s, None).

Definition emit (e : Event) : Handler unit :=
  fun s => (mkExchange (rw s) (trace s ++ [e]), Some tt).

(** A call of a function that does not touch the response. *)
Definition call {A} (e : Event) (res : A) : Handler A :=
  bind (emit e) (fun _ => ret res).

(** [authFn(w, r)]. *)
Definition call_authFn (authFn : Authenticator) (r : http.Request)
  : Handler (result Session) :=
  fun s =>
    let '(w', res) := authFn (rw s) r in
    (mkExchange w' (trace s ++ [Ev_authFn r]), Some res).

(** [saml.Logf(format, err)]. *)
Definition Logf (format : string) (err : error) : Handler unit :=
  emit (Ev_Logf format err).

Definition call_writeErr (err : error) : Handler unit :=
  fun s => (mkExchange (writeErr (rw s) err) (trace s ++ [Ev_writeErr err]),
            Some tt).

Definition w_Header_Set (key value : string) : Handler unit :=
  fun s => (mkExchange (http.Header_Set key value (rw s))
              (trace s ++ [Ev_Header_Set key value]), Some tt).

Definition w_Write (b : list byte) : Handler unit :=
  fun s => (mkExchange (http.Write b (rw s)) (trace s ++ [Ev_Write b]),
            Some tt).

(** The statement that follows every fallible call but the hook's:
    [if err != nil { saml.Logf(format, err); writeErr(w, err); return }]. *)
Definition orFail {A} (c : Handler (result A)) (format : string) : Handler A :=
  bind c (fun res =>
    match res with
    | Ok a => ret a
    | Err err =>
        bind (Logf format err) (fun _ =>
        bind (call_writeErr err) (fun _ => return_))
    end).

Notation "x <- c ;; k" := (bind c (fun x => k))
  (at level 62, c at next level, right associativity, only parsing).
Notation "c ;;; k" := (bind c (fun _ => k))
  (at level 62, right associativity, only parsing).

Definition tab : string := String "009"%char EmptyString.

(** The XML declaration that [ServeMetadata] writes. *)
Definition xml_declaration : string :=
  "<?xml version=" +:+ dq +:+ "1.0" +:+ dq +:+
  " encoding=" +:+ dq +:+ "UTF-8" +:+ dq +:+ "?>" +:+ nl.

(** [NewMiddleware]. *)
Definition NewMiddleware (idp : option IdentityProvider) : go Middleware :=
  match idp with
  | None => Panic "IdP cannot be a nil value."
  | Some _ => Return (mkMiddleware idp)
  end.

(** The body of [ServeMetadata]. *)
Definition ServeMetadata_body (m : Middleware) (r : http.Request)
  : Handler unit :=
  metadata <- orFail (call Ev_idp_Metadata (idp_Metadata (idp m)))
                "Failed to generate metadata: %v" ;;
  out <- orFail (call (Ev_xml_MarshalIndent_Metadata metadata)
                   (xml_MarshalIndent_Metadata metadata EmptyString tab))
           "Failed to build metadata: %v" ;;
  w_Header_Set "Content-Type" "application/xml; charset=utf8" ;;;
  w_Write (list_byte_of_string xml_declaration) ;;;
  w_Write out.

(** [Middleware.ServeMetadata(w, r)]: the response writer and the
    calls made when the handler returns. *)
Definition ServeMetadata (m : Middleware) (w : http.ResponseWriter)
  (r : http.Request) : Exchange :=
  fst (ServeMetadata_body m r (mkExchange w [])).

(** The body of the function that [ServeSSO] returns. *)
Definition ServeSSO_body (m : Middleware) (authFn : Authenticator)
  (r : http.Request) : Handler unit :=
  res <- call_authFn authFn r ;;
  match res with
  | Err err => Logf "authFn: %v" err ;;; return_
  | Ok sess =>
      let values := http.URL_Query r in
      let relayState := url.Get values "RelayState" in
      let samlRequest := url.Get values "SAMLRequest" in
      data <- orFail (call (Ev_base64_DecodeString samlRequest)
                        (base64.DecodeString samlRequest))
                "Failed to decode SAMLRequest: %v" ;;
      buf <- orFail (call (Ev_flate_ReadAll data) (flate.ReadAll data))
               "Failed to read SAMLRequest: %v" ;;
      authnRequest <- orFail (call (Ev_xml_Unmarshal buf) (xml_Unmarshal buf))
                        "Failed to unmarshal SAMLRequest: %v" ;;
      let idpAuthnRequest := newIdpAuthnRequest (idp m) r authnRequest in
      idpAuthnRequest <- orFail (call (Ev_MakeAssertion idpAuthnRequest sess)
                                   (MakeAssertion idpAuthnRequest sess))
                           "Failed to make assertion: %v" ;;
      idpAuthnRequest <- orFail (call (Ev_MarshalAssertion idpAuthnRequest)
                                   (MarshalAssertion idpAuthnRequest))
                           "Failed to marshal assertion: %v" ;;
      idpAuthnRequest <- orFail (call (Ev_MakeResponse idpAuthnRequest)
                                   (MakeResponse idpAuthnRequest))
                           "Failed to build response: %v" ;;
      buf <- orFail (call (Ev_xml_MarshalIndent_Response
                             (get_Response idpAuthnRequest))
                       (xml_MarshalIndent_Response
                          (get_Response idpAuthnRequest) EmptyString tab))
               "Failed to format response: %v" ;;
      let form := mkRedirectForm
                    (get_Recipient idpAuthnRequest)
                    relayState (* RelayState is passed as is. *)
                    (base64.EncodeToString buf) in
      formTpl <- orFail (call (Ev_template_Parse redirectFormTemplate)
                           (template.Parse redirectFormTemplate))
                   "Failed to create form: %v" ;;
      formBuf <- orFail (call (Ev_template_Execute form)
                           (template.Execute formTpl (redirectForm_data form)))
                   "Failed to build form: %v" ;;
      w_Header_Set "Content-Type" "text/html" ;;;
      w_Write formBuf
  end.

(** [Middleware.ServeSSO(authFn)(w, r)]: the response writer and the
    calls made when the handler returns. *)
Definition ServeSSO (m : Middleware) (authFn : Authenticator)
  (w : http.ResponseWriter) (r : http.Request) : Exchange :=
  fst (ServeSSO_body m authFn r (mkExchange w [])).

End Handlers.

(** ** The codec steps in the specification's words *)

(** The three kinds of failure of the inbound-request decoding, named as
    the specification names them, with the message the handler logs for
    each. *)
Inductive CodecError : Type :=
  | DecodeError
  | InflateError
  | XMLParseError.

Definition codecMessage (kind : CodecError) : string :=
  match kind with
  | DecodeError => "Failed to decode SAMLRequest: %v"
  | InflateError => "Failed to read SAMLRequest: %v"
  | XMLParseError => "Failed to unmarshal SAMLRequest: %v"
  end.

(** [DecodeAuthnRequest] as section 4.1 of the specification words it:
    base64-decode, decompress, unmarshal; the first failure ends the
    decoding and gives its kind. *)
Definition DecodeAuthnRequest `{Externals} (raw : string)
  : (CodecError * error) + AuthnRequest :=
  match base64.DecodeString raw with
  | Err e => inl (DecodeError, e)
  | Ok data =>
      match flate.ReadAll data with
      | Err e => inl (InflateError, e)
      | Ok buf =>
          match xml_Unmarshal buf with
          | Err e => inl (XMLParseError, e)
          | Ok req => inr req
          end
      end
  end.

(** ** A stored-block compressor

    [flate.NewWriter] at level [flate.NoCompression] writes stored
    blocks.  [lenBytes n] is the header of a stored block of [n] bytes:
    the length and its complement, low byte first. *)
Definition lenBytes (n : N) : list byte :=
  [ base64.byte_of_N n; base64.byte_of_N (N.shiftr n 8);
    base64.byte_of_N (N.lxor n 65535);
    base64.byte_of_N (N.shiftr (N.lxor n 65535) 8) ].

(** One final stored block holding [data], for [data] shorter than 65536
    bytes. *)
Definition storedBlock (data : list byte) : list byte :=
  x01 :: lenBytes (N.of_nat (length data)) ++ data.

(** A stream of stored blocks, one per chunk, closed by an empty final
    block. *)
Fixpoint storedStream (chunks : list (list byte)) : list byte :=
  match chunks with
  | [] => x01 :: lenBytes 0
  | chunk :: chunks' =>
      x00 :: lenBytes (N.of_nat (length chunk)) ++ chunk ++ storedStream chunks'
  end.

(** The value of three bytes, of which [Encode] takes the four digits. *)
Definition val3 (a b c : byte) : N :=
  N.lor (N.lor (N.shiftl (Byte.to_N a) 16) (N.shiftl (Byte.to_N b) 8))
        (Byte.to_N c).

(** Whether the character of a 6-bit value decodes to that value. *)
Definition digit_ok (v : N) : bool :=
  match base64.decodeMap (base64.encodeChar v) with
  | Some v' => N.eqb v' v
  | None => false
  end.

(** ** An instance of the external declarations

    A small collaborator used to run the handlers on concrete requests:
    sessions, requests, responses and metadata are strings, an XML
    document is accepted when it starts with [<], and the assertion's
    recipient is a fixed URL. *)
Module Demo.

Record Request : Type := mkRequest {
  IDP : option string;
  HTTPRequest : http.Request;
  Request_ : string;
  Recipient : string;
  Response_ : string
}.

Definition Unmarshal (buf : list byte) : result string :=
  match buf with
  | "<"%byte :: _ => Ok (string_of_list_byte buf)
  | _ => Err (errors_New "XML syntax error")
  end.

Definition MarshalIndent (v : string) (prefix indent : string)
  : result (list byte) :=
  Ok (list_byte_of_string ("<doc>" +:+ nl +:+ indent +:+ v +:+ nl +:+ "</doc>")).

(** Modelled from the spec: [writeErr] is declared in another file of
    the package, which is not at hand.  Section 7 describes it: a generic
    error response that reflects no detail of the error, with a status
    other than 200. *)
Definition genericError (w : http.ResponseWriter) (err : error)
  : http.ResponseWriter :=
  http.Write (list_byte_of_string ("Internal Server Error" +:+ nl))
    (http.WriteHeader 500
       (http.Header_Set "Content-Type" "text/plain; charset=utf-8" w)).

Definition externals : Externals := {|
  IdentityProvider := string;
  Session := string;
  AuthnRequest := string;
  Response := string;
  Metadata := string;
  IdpAuthnRequest := Request;
  newIdpAuthnRequest := fun idp r req =>
    mkRequest idp r req EmptyString EmptyString;
  idp_Metadata := fun idp =>
    match idp with
    | Some "broken" => Err (errors_New "no certificate")
    | Some id => Ok id
    | None => Err (errors_New "nil identity provider")
    end;
  MakeAssertion := fun req sess =>
    Ok (mkRequest (IDP req) (HTTPRequest req) (Request_ req)
          "https://sp.example.com/acs" EmptyString);
  MarshalAssertion := fun req => Ok req;
  MakeResponse := fun req =>
    Ok (mkRequest (IDP req) (HTTPRequest req) (Request_ req)
          (Recipient req) "response");
  get_Response := Response_;
  get_Recipient := Recipient;
  xml_Unmarshal := Unmarshal;
  xml_MarshalIndent_Metadata := MarshalIndent;
  xml_MarshalIndent_Response := MarshalIndent;
  writeErr := genericError
|}.

(** A hook that accepts every caller, and one that rejects every caller
    after redirecting to a login page. *)
Definition acceptAll : @Authenticator externals :=
  fun w r => (w, Ok "alice").

Definition rejectAll : @Authenticator externals :=
  fun w r =>
    (http.WriteHeader 302 (http.Header_Set "Location" "/login" w),
     Err (errors_New "not logged in")).

(** [<AuthnRequest ID=abc/>], stored as one deflate block, and a request
    carrying it with a relay state. *)
Definition document : list byte :=
  list_byte_of_string "<AuthnRequest ID=abc/>".

Definition samlRequest : string :=
  base64.EncodeToString (storedBlock document).

Definition request (relayState : string) : http.Request :=
  http.mkRequest
    (<["RelayState" := [relayState]]> (<["SAMLRequest" := [samlRequest]]> ∅)).

Definition middleware : @Middleware externals :=
  @mkMiddleware externals (Some "idp").

Definition brokenMiddleware : @Middleware externals :=
  @mkMiddleware externals (Some "broken").

End Demo.

(** ** [NewLoginRequest] *)
Module Login.
Section Login.
Context {X : Externals}.

(** The metadata of a service provider, as [saml.GetMetadata] fetches it
    from a URL; both are declared in package [saml]. *)
Variable SPMetadata : Type.
Variable GetMetadata : string -> result SPMetadata.

(** [LoginRequest], with the fields that [NewLoginRequest] sets. *)
Record LoginRequest : Type := mkLoginRequest {
  spMetadataURL : string;
  m : Middleware;
  authFn : Authenticator;
  metadata : SPMetadata
}.

(** [Middleware.NewLoginRequest(spMetadataURL, authFn)]: what it logs,
    and the request or the error it returns. *)
Definition NewLoginRequest (m : Middleware) (spMetadataURL : string)
  (authFn : Authenticator) : list Event * result LoginRequest :=
  match GetMetadata spMetadataURL with
  | Err err => ([Ev_Logf "Failed to get metadata: %v" err], Err err)
  | Ok metadata => ([], Ok (mkLoginRequest spMetadataURL m authFn metadata))
  end.

End Login.
End Login.

(** The number of characters of an encoded text that are not line
    breaks. *)
Fixpoint significant (src : list byte) : nat :=
  match src with
  | [] => 0
  | c :: rest =>
      if base64.isNewline c then significant rest else S (significant rest)
  end.

(** The characters that [template.HTMLEscapeString] leaves as they are. *)
Definition unreserved (c : ascii) : bool :=
  negb (Ascii.eqb c "034"%char) && negb (Ascii.eqb c "'"%char)
  && negb (Ascii.eqb c "&"%char) && negb (Ascii.eqb c "<"%char)
  && negb (Ascii.eqb c ">"%char) && negb (Ascii.eqb c "000"%char).

(** The reader with [junk] after its input. *)
Definition extend (junk : list byte) (r : flate.reader) : flate.reader :=
  flate.mkReader (flate.bitbuf r) (flate.input r ++ junk).

(** ** A second instance, whose metadata cannot be serialized *)
Module DemoStrict.

Definition externals : Externals := {|
  IdentityProvider := string;
  Session := string;
  AuthnRequest := string;
  Response := string;
  Metadata := string;
  IdpAuthnRequest := Demo.Request;
  newIdpAuthnRequest := @newIdpAuthnRequest Demo.externals;
  idp_Metadata := @idp_Metadata Demo.externals;
  MakeAssertion := @MakeAssertion Demo.externals;
  MarshalAssertion := @MarshalAssertion Demo.externals;
  MakeResponse := @MakeResponse Demo.externals;
  get_Response := Demo.Response_;
  get_Recipient := Demo.Recipient;
  xml_Unmarshal := Demo.Unmarshal;
  xml_MarshalIndent_Metadata := fun _ _ _ =>
    Err (errors_New "xml: unsupported type");
  xml_MarshalIndent_Response := Demo.MarshalIndent;
  writeErr := Demo.genericError
|}.

Definition middleware : @Middleware externals :=
  @mkMiddleware externals (Some "idp").

End DemoStrict.

(** The events that are calls of functions which neither log nor touch
    the response: the codec, the collaborator and the template. *)
Definition is_call `{Externals} (e : Event) : bool :=
  match e with
  | Ev_authFn _ | Ev_Logf _ _ | Ev_Header_Set _ _ | Ev_Write _
  | Ev_writeErr _ => false
  | _ => true
  end.

(** * Properties *)

(** ** The library models on known inputs *)

Example DecodeString_padded :
  base64.DecodeString "aGVsbG8=" = Ok (list_byte_of_string "hello").
Proof. reflexivity. Qed.

Example DecodeString_unpadded :
  base64.DecodeString "aGVsbG8" = Err base64_CorruptInputError.
Proof. reflexivity. Qed.

Example DecodeString_illegal_character :
  base64.DecodeString "aGV*bG8=" = Err base64_CorruptInputError.
Proof. reflexivity. Qed.

(** [hello], compressed by zlib with the fixed Huffman coding. *)
Example ReadAll_fixed_block :
  flate.ReadAll [xcb; x48; xcd; xc9; xc9; x07; x00]
  = Ok (list_byte_of_string "hello").
Proof. vm_compute. reflexivity. Qed.

(** A block with dynamic Huffman codings, as zlib wrote it. *)
Example ReadAll_dynamic_block :
  flate.ReadAll
    [ x1d; x8c; x89; x09; x00; x30; x0c; x02; x67; x55; x6f; xff; x19; x7a;
      x29; x04; x7c; xa2; x2e; x4d; xe9; x4a; x58; x82; x5c; x04; xd2; xfe;
      x0f; x13; x73; xac; x99; xb9; x0d; x09; x27; x25; x86; x88; xd2; x40;
      xaf; xee; x19; xe1; x0f; xde; xa4; x5b; x82; xaf; x6b; x6a; xe5; x8a;
      xd5; x7e ]
  = Ok (list_byte_of_string
          ("cababdbcbdadcaadbdbdcadddabbbabdbdcbbaaabdbbacbcbccdbacddbba" +:+
           "dbabbbdaacdaabbcaadaadcbcddbcbdbdaddcabdabcabcbcbdbaddbbbddc")).
Proof. vm_compute. reflexivity. Qed.

(** The reserved block type. *)
Example ReadAll_reserved_block :
  flate.ReadAll [x07] = Err flate_CorruptInputError.
Proof. reflexivity. Qed.

(** Bytes that are no deflate stream, and a stream cut short. *)
Example ReadAll_not_deflate :
  flate.ReadAll (list_byte_of_string "<AuthnRequest/>")
  = Err flate_CorruptInputError.
Proof. vm_compute. reflexivity. Qed.

Example ReadAll_truncated :
  flate.ReadAll [xcb; x48; xcd; xc9; xc9] = Err io_ErrUnexpectedEOF.
Proof. vm_compute. reflexivity. Qed.

Example HTMLEscapeString_lt :
  template.HTMLEscapeString "a<b" = "a&lt;b".
Proof. reflexivity. Qed.

(** ** encoding/base64: decoding inverts encoding *)
Module base64_facts.
Import base64.
Local Open Scope N_scope.

Lemma lor_shiftl_add (x y k : N) :
  y < 2 ^ k -> N.lor (N.shiftl x k) y = x * 2 ^ k + y.
Proof.
  intros Hy.
  assert (Hland : N.land (N.shiftl x k) y = 0).
  { apply N.bits_inj; intros n. rewrite N.land_spec, N.bits_0.
    destruct (N.lt_ge_cases n k) as [Hn | Hn].
    - rewrite N.shiftl_spec_low by exact Hn. reflexivity.
    - rewrite <- (N.mod_small y (2 ^ k)) by exact Hy.
      rewrite N.mod_pow2_bits_high by exact Hn. apply andb_false_r. }
  rewrite <- N.lxor_lor, <- N.add_nocarry_lxor by exact Hland.
  rewrite N.shiftl_mul_pow2. reflexivity.
Qed.

Lemma byte_of_N_to_N (a : byte) (v : N) :
  v mod 256 = Byte.to_N a -> byte_of_N v = a.
Proof.
  intros H. unfold byte_of_N. change 255 with (N.ones 8).
  rewrite N.land_ones. change (2 ^ 8) with 256. rewrite H, Byte.of_to_N.
  reflexivity.
Qed.

Lemma land_63 (v : N) : N.land v 63 = v mod 64.
Proof. change 63 with (N.ones 6). apply N.land_ones. Qed.

Lemma to_N_lt (a : byte) : Byte.to_N a < 256.
Proof. pose proof (Byte.to_N_bounded a). lia. Qed.

(** The alphabet: every 6-bit value is the digit of its character. *)
Lemma digits_ok : forallb digit_ok (map N.of_nat (seq 0 64)) = true.
Proof. vm_compute. reflexivity. Qed.

Lemma decodeMap_encodeChar (v : N) :
  v < 64 -> decodeMap (encodeChar v) = Some v.
Proof.
  intros Hv. pose proof digits_ok as H.
  rewrite forallb_forall in H.
  specialize (H v). unfold digit_ok in H.
  destruct (decodeMap (encodeChar v)) as [v' |].
  - f_equal. apply N.eqb_eq. apply H.
    apply in_map_iff. exists (N.to_nat v). split; [lia |].
    apply in_seq. lia.
  - discriminate H.
    apply in_map_iff. exists (N.to_nat v). split; [lia |].
    apply in_seq. lia.
Qed.

Lemma decodeMap_padChar : decodeMap padChar = None.
Proof. reflexivity. Qed.

Lemma val3_add (a b c : byte) :
  val3 a b c = Byte.to_N a * 65536 + Byte.to_N b * 256 + Byte.to_N c.
Proof.
  unfold val3. pose proof (to_N_lt a). pose proof (to_N_lt b).
  pose proof (to_N_lt c).
  rewrite <- N.lor_assoc.
  rewrite (lor_shiftl_add (Byte.to_N b) (Byte.to_N c) 8)
    by (change (2 ^ 8) with 256; lia).
  rewrite lor_shiftl_add by (change (2 ^ 16) with 65536; change (2 ^ 8) with 256; lia).
  change (2 ^ 16) with 65536; change (2 ^ 8) with 256. lia.
Qed.

Lemma quantumVal_add (s0 s1 s2 s3 : N) :
  s1 < 64 -> s2 < 64 -> s3 < 64 ->
  quantumVal [s0; s1; s2; s3] = s0 * 262144 + s1 * 4096 + s2 * 64 + s3.
Proof.
  intros H1 H2 H3. unfold quantumVal. cbn [nth].
  rewrite <- !N.lor_assoc.
  rewrite (lor_shiftl_add s2 s3 6) by (change (2 ^ 6) with 64; lia).
  rewrite (lor_shiftl_add s1 _ 12)
    by (change (2 ^ 12) with 4096; change (2 ^ 6) with 64; lia).
  rewrite lor_shiftl_add
    by (change (2 ^ 18) with 262144; change (2 ^ 12) with 4096;
        change (2 ^ 6) with 64; lia).
  change (2 ^ 18) with 262144; change (2 ^ 12) with 4096;
    change (2 ^ 6) with 64. lia.
Qed.

(** The digits of a value below [2^24] put together give the value. *)
Lemma digits_val (v : N) :
  v < 16777216 ->
  quantumVal [N.land (N.shiftr v 18) 63; N.land (N.shiftr v 12) 63;
              N.land (N.shiftr v 6) 63; N.land v 63] = v.
Proof.
  intros Hv. rewrite !land_63, !N.shiftr_div_pow2.
  change (2 ^ 18) with 262144; change (2 ^ 12) with 4096;
    change (2 ^ 6) with 64.
  rewrite quantumVal_add by (apply N.mod_lt; discriminate).
  replace (v / 4096) with (v / 64 / 64)
    by (rewrite N.Div0.div_div; reflexivity).
  replace (v / 262144) with (v / 64 / 64 / 64)
    by (rewrite !N.Div0.div_div; reflexivity).
  assert (H64 : 64 <> 0) by discriminate.
  pose proof (N.div_mod v 64 H64). pose proof (N.div_mod (v / 64) 64 H64).
  pose proof (N.div_mod (v / 64 / 64) 64 H64).
  pose proof (N.mod_lt v 64 H64). pose proof (N.mod_lt (v / 64) 64 H64).
  pose proof (N.mod_lt (v / 64 / 64) 64 H64).
  generalize dependent (v mod 64). generalize dependent ((v / 64) mod 64).
  generalize dependent ((v / 64 / 64) mod 64).
  generalize dependent (v / 64 / 64 / 64). intros q3 r2.
  generalize dependent (v / 64 / 64). intros q2.
  generalize dependent (v / 64). intros q1 **.
  rewrite (N.mod_small q3) by lia. lia.
Qed.

Lemma quantumBytes_val3 (a b c : byte) :
  let v := val3 a b c in
  quantumBytes [N.land (N.shiftr v 18) 63; N.land (N.shiftr v 12) 63;
                N.land (N.shiftr v 6) 63; N.land v 63] 4 = [a; b; c].
Proof.
  intros v. unfold quantumBytes.
  pose proof (to_N_lt a). pose proof (to_N_lt b). pose proof (to_N_lt c).
  pose proof (val3_add a b c) as Hv. fold v in Hv.
  rewrite digits_val by lia. cbn [Nat.sub firstn].
  rewrite !N.shiftr_div_pow2.
  change (2 ^ 16) with 65536; change (2 ^ 8) with 256.
  rewrite (byte_of_N_to_N a), (byte_of_N_to_N b), (byte_of_N_to_N c);
    [reflexivity | ..].
  - symmetry. apply (N.mod_unique _ _ (Byte.to_N a * 256 + Byte.to_N b)); lia.
  - rewrite <- (N.div_unique v 256 (Byte.to_N a * 256 + Byte.to_N b)
                  (Byte.to_N c)) by lia.
    symmetry. apply (N.mod_unique _ _ (Byte.to_N a)); lia.
  - rewrite <- (N.div_unique v 65536 (Byte.to_N a)
                  (Byte.to_N b * 256 + Byte.to_N c)) by lia.
    apply N.mod_small. lia.
Qed.

Lemma quantumBytes_val2 (a b : byte) :
  let v := val3 a b x00 in
  quantumBytes [N.land (N.shiftr v 18) 63; N.land (N.shiftr v 12) 63;
                N.land (N.shiftr v 6) 63] 3 = [a; b].
Proof.
  intros v. pose proof (quantumBytes_val3 a b x00) as H. cbv zeta in H.
  fold v in H.
  assert (H0 : N.land v 63 = 0).
  { rewrite land_63. unfold v. rewrite val3_add. cbn [Byte.to_N].
    symmetry.
    apply (N.mod_unique _ _ (Byte.to_N a * 1024 + Byte.to_N b * 4)); lia. }
  rewrite H0 in H. unfold quantumBytes, quantumVal in *. cbn [nth] in *.
  cbn [Nat.sub firstn] in *. injection H as Ha Hb. rewrite Ha, Hb. reflexivity.
Qed.

Lemma quantumBytes_val1 (a : byte) :
  let v := val3 a x00 x00 in
  quantumBytes [N.land (N.shiftr v 18) 63; N.land (N.shiftr v 12) 63] 2 = [a].
Proof.
  intros v. pose proof (quantumBytes_val3 a x00 x00) as H. cbv zeta in H.
  fold v in H.
  assert (Hv : v = Byte.to_N a * 65536).
  { unfold v. rewrite val3_add. cbn [Byte.to_N]. lia. }
  assert (H0 : N.land v 63 = 0).
  { rewrite land_63, Hv. symmetry.
    apply (N.mod_unique _ _ (Byte.to_N a * 1024)); lia. }
  assert (H6 : N.land (N.shiftr v 6) 63 = 0).
  { rewrite land_63, N.shiftr_div_pow2, Hv. change (2 ^ 6) with 64.
    rewrite <- (N.div_unique (Byte.to_N a * 65536) 64 (Byte.to_N a * 1024) 0)
      by lia.
    symmetry. apply (N.mod_unique _ _ (Byte.to_N a * 16)); lia. }
  rewrite H0, H6 in H. unfold quantumBytes, quantumVal in *. cbn [nth] in *.
  cbn [Nat.sub firstn] in *. injection H as Ha. rewrite Ha. reflexivity.
Qed.

Lemma val3_one (a : byte) : N.shiftl (Byte.to_N a) 16 = val3 a x00 x00.
Proof.
  unfold val3. cbn [Byte.to_N]. rewrite N.shiftl_0_l, !N.lor_0_r. reflexivity.
Qed.

Lemma val3_two (a b : byte) :
  N.lor (N.shiftl (Byte.to_N a) 16) (N.shiftl (Byte.to_N b) 8) = val3 a b x00.
Proof. unfold val3. cbn [Byte.to_N]. rewrite N.lor_0_r. reflexivity. Qed.

Lemma digit_lt (v : N) : N.land v 63 < 64.
Proof. rewrite land_63. apply N.mod_lt. discriminate. Qed.

(** One step of [decode] on a character of the alphabet. *)
Lemma decode_digit (c : byte) (v : N) (rest : list byte) (dbuf : list N)
  (out : list byte) :
  decodeMap c = Some v ->
  decode (c :: rest) dbuf out
  = if Nat.eqb (length dbuf) 3
    then decode rest [] (out ++ quantumBytes (dbuf ++ [v]) 4)
    else decode rest (dbuf ++ [v]) out.
Proof. intros H. cbn [decode]. rewrite H. reflexivity. Qed.

Lemma decode_padding2 (s0 s1 : N) (out : list byte) :
  decode [padChar; padChar] [s0; s1] out = Ok (out ++ quantumBytes [s0; s1] 2).
Proof. reflexivity. Qed.

Lemma decode_padding1 (s0 s1 s2 : N) (out : list byte) :
  decode [padChar] [s0; s1; s2] out = Ok (out ++ quantumBytes [s0; s1; s2] 3).
Proof. reflexivity. Qed.

(** Induction on a list, three elements at a time. *)
Lemma list_ind3 {A} (P : list A -> Prop) :
  P [] -> (forall a, P [a]) -> (forall a b, P [a; b]) ->
  (forall a b c l, P l -> P (a :: b :: c :: l)) ->
  forall l, P l.
Proof.
  intros H0 H1 H2 H3.
  fix IH 1.
  intros [| a [| b [| c l]]];
    [apply H0 | apply H1 | apply H2 | apply H3; apply IH].
Qed.

Lemma decode_Encode (bs out : list byte) :
  decode (Encode bs) [] out = Ok (out ++ bs).
Proof.
  revert out. induction bs as [| a | a b | a b c l IH] using list_ind3;
    intros out.
  - cbn. rewrite app_nil_r. reflexivity.
  - cbn [Encode].
    rewrite val3_one.
    rewrite (decode_digit _ _ _ _ _ (decodeMap_encodeChar _ (digit_lt _))).
    cbn [length Nat.eqb app].
    rewrite (decode_digit _ _ _ _ _ (decodeMap_encodeChar _ (digit_lt _))).
    cbn [length Nat.eqb app].
    rewrite decode_padding2, quantumBytes_val1. reflexivity.
  - cbn [Encode].
    rewrite val3_two.
    do 3 (rewrite (decode_digit _ _ _ _ _ (decodeMap_encodeChar _ (digit_lt _)));
          cbn [length Nat.eqb app]).
    rewrite decode_padding1, quantumBytes_val2. reflexivity.
  - cbn [Encode]. fold (val3 a b c).
    do 4 (rewrite (decode_digit _ _ _ _ _ (decodeMap_encodeChar _ (digit_lt _)));
          cbn [length Nat.eqb app]).
    rewrite quantumBytes_val3, IH, <- app_assoc. reflexivity.
Qed.

End base64_facts.

(** [DecodeString] gives back what [EncodeToString] encoded. *)
Lemma DecodeString_EncodeToString (bs : list byte) :
  base64.DecodeString (base64.EncodeToString bs) = Ok bs.
Proof.
  unfold base64.DecodeString, base64.EncodeToString.
  rewrite list_byte_of_string_of_list_byte.
  apply base64_facts.decode_Encode.
Qed.

(** ** compress/flate: the reading loop never runs out of steps *)
Module flate_facts.
Import flate.

Lemma length_bits_of_byte (c : byte) : length (bits_of_byte c) = 8%nat.
Proof. reflexivity. Qed.

Lemma fill_avail (n : nat) (inp : list byte) :
  forall buf buf' inp',
    fill n buf inp = Ok (buf', inp') ->
    (length buf' + 8 * length inp' = length buf + 8 * length inp
     /\ n <= length buf')%nat.
Proof.
  induction inp as [| c inp IH]; intros buf buf' inp' H; cbn [fill] in H;
    destruct (n <=? length buf)%nat eqn:Hn.
  - injection H as <- <-. apply Nat.leb_le in Hn. lia.
  - discriminate H.
  - injection H as <- <-. apply Nat.leb_le in Hn. lia.
  - apply IH in H. rewrite length_app, length_bits_of_byte in H.
    cbn [length]. lia.
Qed.

Lemma fill_enough (n : nat) (buf : list bool) (inp : list byte) :
  (n <= length buf)%nat -> fill n buf inp = Ok (buf, inp).
Proof.
  intros Hn. apply Nat.leb_le in Hn.
  destruct inp; cbn [fill]; rewrite Hn; reflexivity.
Qed.

(** The three header bits of a block that starts a byte. *)
Lemma readBits_header (c : byte) (inp : list byte) :
  readBits 3 (mkReader [] (c :: inp))
  = Ok (N_of_bits (firstn 3 (bits_of_byte c)),
        mkReader (skipn 3 (bits_of_byte c)) inp).
Proof.
  unfold readBits. cbn [bitbuf input fill length Nat.leb app].
  rewrite fill_enough by (rewrite length_bits_of_byte; lia). reflexivity.
Qed.

(** [readBits n] takes exactly [n] bits from the stream. *)
Lemma readBits_avail (n : nat) (r r' : reader) (v : N) :
  readBits n r = Ok (v, r') -> (avail r' + n = avail r)%nat.
Proof.
  unfold readBits. destruct (fill n (bitbuf r) (input r)) as [[buf inp] | e] eqn:Hf;
    [| discriminate].
  intros H. injection H as _ <-. apply fill_avail in Hf.
  unfold avail. cbn [bitbuf input]. rewrite length_skipn. lia.
Qed.

Lemma decodeSym_avail (syms cnts : list N) :
  forall code first index r v r',
    decodeSym syms cnts code first index r = Ok (v, r') ->
    (avail r' < avail r)%nat.
Proof.
  induction cnts as [| count cnts IH]; intros code first index r v r' H;
    cbn [decodeSym] in H; [discriminate |].
  destruct (readBits 1 r) as [[bit r1] | e] eqn:Hb; [| discriminate].
  apply readBits_avail in Hb.
  destruct (code + bit <? first + count)%N.
  - injection H as _ <-. lia.
  - apply IH in H. lia.
Qed.

(** Decoding a symbol takes at least one bit. *)
Lemma huffSym_avail (h : huffmanDecoder) (r r' : reader) (v : N) :
  huffSym h r = Ok (v, r') -> (avail r' < avail r)%nat.
Proof.
  unfold huffSym. destruct (avail r <? hmin h)%nat; [discriminate |].
  apply decodeSym_avail.
Qed.

Lemma readCodeLens_avail (k : nat) :
  forall r vs r', readCodeLens k r = Ok (vs, r') -> (avail r' <= avail r)%nat.
Proof.
  induction k as [| k IH]; intros r vs r' H; cbn [readCodeLens] in H.
  - injection H as _ <-. lia.
  - destruct (readBits 3 r) as [[v r1] | e] eqn:Hb; [| discriminate].
    destruct (readCodeLens k r1) as [[vs' r2] | e] eqn:Hr; [| discriminate].
    injection H as _ <-. apply readBits_avail in Hb. apply IH in Hr. lia.
Qed.

Lemma readLengths_avail (h : huffmanDecoder) (k : nat) :
  forall pend b acc r bits r',
    readLengths h k pend b acc r = Ok (bits, r') -> (avail r' <= avail r)%nat.
Proof.
  induction k as [| k IH]; intros pend b acc r bits r' H;
    cbn [readLengths] in H.
  - injection H as _ <-. lia.
  - destruct pend as [| p]; [| apply IH in H; exact H].
    destruct (huffSym h r) as [[x r1] | e] eqn:Hs; [| discriminate].
    apply huffSym_avail in Hs.
    destruct (x <? 16)%N; [apply IH in H; lia |].
    destruct (if (x =? 16)%N then _ else _) as [[[rep0 nb] b'] | e];
      [| discriminate].
    destruct ((x =? 16)%N && Nat.eqb (length acc) 0); [discriminate |].
    destruct (readBits nb r1) as [[extra r2] | e] eqn:Hb; [| discriminate].
    apply readBits_avail in Hb.
    destruct (S k <? N.to_nat (rep0 + extra))%nat; [discriminate |].
    apply IH in H. lia.
Qed.

Lemma readHuffman_avail (r r' : reader) (hl hd : huffmanDecoder) :
  readHuffman r = Ok (hl, hd, r') -> (avail r' <= avail r)%nat.
Proof.
  unfold readHuffman.
  destruct (readBits 14 r) as [[hdr r1] | e] eqn:Hb; [| discriminate].
  apply readBits_avail in Hb.
  destruct (286 <? _)%N; [discriminate |].
  destruct (30 <? _)%N; [discriminate |].
  destruct (readCodeLens _ r1) as [[vs r2] | e] eqn:Hc; [| discriminate].
  apply readCodeLens_avail in Hc.
  destruct (init (codebits vs)) as [h1 |]; [| discriminate].
  destruct (readLengths h1 _ _ _ _ r2) as [[bits r3] | e] eqn:Hl;
    [| discriminate].
  apply readLengths_avail in Hl.
  destruct (init (firstn _ bits)) as [hl0 |]; [| discriminate].
  destruct (init (skipn _ bits)) as [hd0 |]; [| discriminate].
  intros H. injection H as _ _ <-. lia.
Qed.

Lemma readDist_avail (hd : option huffmanDecoder) (r r' : reader) (d : N) :
  readDist hd r = Ok (d, r') -> (avail r' <= avail r)%nat.
Proof.
  unfold readDist.
  destruct (readDistSym hd r) as [[dist r1] | e] eqn:Hs; [| discriminate].
  assert (H1 : (avail r1 <= avail r)%nat).
  { unfold readDistSym in Hs. destruct hd as [h |].
    - apply huffSym_avail in Hs. lia.
    - destruct (fill 5 (bitbuf r) (input r)) as [[buf inp] | e] eqn:Hf;
        [| discriminate].
      injection Hs as _ <-. apply fill_avail in Hf.
      unfold avail. cbn [bitbuf input]. rewrite length_skipn. lia. }
  destruct (dist <? 4)%N; [intros H; injection H as _ <-; exact H1 |].
  destruct (dist <? 30)%N; [| discriminate].
  destruct (readBits _ r1) as [[bits r2] | e] eqn:Hb; [| discriminate].
  apply readBits_avail in Hb. intros H. injection H as _ <-. lia.
Qed.

Lemma dataBlock_avail (r r' : reader) (hist hist' : list byte) :
  dataBlock r hist = Ok (r', hist') -> (avail r' <= avail r)%nat.
Proof.
  unfold dataBlock.
  destruct (input r) as [| b0 [| b1 [| b2 [| b3 inp]]]] eqn:Hi;
    try discriminate.
  destruct (negb _); [discriminate |].
  destruct (length inp <? _)%nat; [discriminate |].
  intros H. injection H as <- _. unfold avail. cbn [bitbuf input length].
  rewrite Hi, length_skipn. cbn [length]. lia.
Qed.

(** With more steps than bits left in the stream, [run] ends with a
    result. *)
Lemma run_enough_fuel (fuel : nat) :
  forall st final r hist,
    (avail r < fuel)%nat -> run fuel st final r hist <> None.
Proof.
  induction fuel as [| fuel IH]; intros st final r hist Hlt; [lia |].
  cbn [run]. destruct st as [| hl hd].
  - destruct (readBits 3 r) as [[hdr r1] | e] eqn:Hb; [| discriminate].
    apply readBits_avail in Hb.
    destruct (N.shiftr hdr 1 =? 0)%N.
    { destruct (dataBlock r1 hist) as [[r2 hist'] | e] eqn:Hd; [| discriminate].
      apply dataBlock_avail in Hd.
      destruct (N.testbit hdr 0); [discriminate | apply IH; lia]. }
    destruct (N.shiftr hdr 1 =? 1)%N; [apply IH; lia |].
    destruct (N.shiftr hdr 1 =? 2)%N; [| discriminate].
    destruct (readHuffman r1) as [[[hl hd] r2] | e] eqn:Hh; [| discriminate].
    apply readHuffman_avail in Hh. apply IH. lia.
  - destruct (huffSym hl r) as [[v r1] | e] eqn:Hs; [| discriminate].
    apply huffSym_avail in Hs.
    destruct (v <? 256)%N; [apply IH; lia |].
    destruct (v =? 256)%N.
    { destruct final; [discriminate | apply IH; lia]. }
    destruct (lengthCode v) as [[len0 n] |]; [| discriminate].
    destruct (readBits n r1) as [[extra r2] | e] eqn:Hb; [| discriminate].
    apply readBits_avail in Hb.
    destruct (readDist hd r2) as [[dist r3] | e] eqn:Hd; [| discriminate].
    apply readDist_avail in Hd.
    destruct (length hist <? N.to_nat dist)%nat; [discriminate |].
    apply IH. lia.
Qed.

End flate_facts.

(** [flate.ReadAll] is the result of the reading loop: the steps it
    allows are never used up. *)
Lemma ReadAll_run (data : list byte) :
  flate.run (flate.steps_for data) flate.nextBlock false
    (flate.mkReader [] data) [] = Some (flate.ReadAll data).
Proof.
  unfold flate.ReadAll.
  destruct (flate.run _ _ _ _ _) as [res |] eqn:Hrun; [reflexivity |].
  exfalso. revert Hrun. apply flate_facts.run_enough_fuel.
  unfold flate.avail, flate.steps_for. cbn [flate.bitbuf flate.input length].
  lia.
Qed.

(** ** Stored blocks decompress to their content *)
Module stored_facts.
Import flate.
Local Open Scope N_scope.

Lemma to_N_byte_of_N (v : N) : Byte.to_N (base64.byte_of_N v) = v mod 256.
Proof.
  unfold base64.byte_of_N. change 255 with (N.ones 8).
  rewrite N.land_ones. change (2 ^ 8) with 256.
  destruct (Byte.of_N (v mod 256)) as [b |] eqn:Hb.
  - apply Byte.to_of_N. exact Hb.
  - apply Byte.of_N_None_iff in Hb.
    pose proof (N.mod_lt v 256). lia.
Qed.

(** A 16-bit number written low byte first, as [dataBlock] reads it. *)
Lemma le16 (n : N) :
  n < 65536 ->
  N.lor (Byte.to_N (base64.byte_of_N n))
        (N.shiftl (Byte.to_N (base64.byte_of_N (N.shiftr n 8))) 8) = n.
Proof.
  intros Hn. rewrite !to_N_byte_of_N, N.shiftr_div_pow2, N.lor_comm.
  change (2 ^ 8) with 256.
  assert (H256 : 256 <> 0) by discriminate.
  pose proof (N.mod_lt n 256 H256).
  rewrite base64_facts.lor_shiftl_add by (change (2 ^ 8) with 256; lia).
  change (2 ^ 8) with 256.
  rewrite (N.mod_small (n / 256))
    by (apply N.Div0.div_lt_upper_bound; lia).
  pose proof (N.div_mod n 256 H256). lia.
Qed.

Lemma lxor_16 (n : N) : n < 65536 -> N.lxor n 65535 < 65536.
Proof.
  intros Hn. destruct (N.eq_dec (N.lxor n 65535) 0) as [-> | Hz]; [lia |].
  apply N.log2_lt_pow2 with (b := 16); [lia |].
  eapply N.le_lt_trans; [apply N.log2_lxor |].
  apply N.max_lub_lt; [| reflexivity].
  destruct (N.eq_dec n 0) as [-> | Hn0]; [reflexivity |].
  apply N.log2_lt_pow2; lia.
Qed.

Lemma dataBlock_stored (bb : list bool) (chunk rest hist : list byte) :
  N.of_nat (length chunk) < 65536 ->
  dataBlock (mkReader bb (lenBytes (N.of_nat (length chunk)) ++ chunk ++ rest))
    hist
  = Ok (mkReader [] rest, rev chunk ++ hist).
Proof.
  intros Hn. unfold dataBlock, lenBytes. cbn [input app].
  rewrite (le16 _ Hn), (le16 _ (lxor_16 _ Hn)), N.eqb_refl. cbn [negb].
  rewrite Nat2N.id.
  replace (length (chunk ++ rest) <? length chunk)%nat with false
    by (symmetry; apply Nat.ltb_ge; rewrite length_app; lia).
  rewrite take_app_length, drop_app_length. reflexivity.
Qed.

Lemma run_storedStream (chunks : list (list byte)) :
  Forall (fun chunk => N.of_nat (length chunk) < 65536) chunks ->
  forall fuel final hist,
    (length chunks < fuel)%nat ->
    run fuel nextBlock final (mkReader [] (storedStream chunks)) hist
    = Some (Ok (rev hist ++ concat chunks)).
Proof.
  induction 1 as [| chunk chunks Hc _ IH]; intros fuel final hist Hf;
    (destruct fuel as [| fuel]; [cbn [length] in Hf; lia |]).
  - cbn. rewrite app_nil_r. reflexivity.
  - cbn [storedStream run].
    rewrite flate_facts.readBits_header.
    change (N_of_bits (firstn 3 (bits_of_byte x00))) with 0.
    cbn [N.shiftr N.eqb N.testbit].
    rewrite (dataBlock_stored _ _ _ _ Hc).
    rewrite IH by (cbn [length] in Hf; lia).
    rewrite rev_app_distr, rev_involutive, <- app_assoc. reflexivity.
Qed.

End stored_facts.

(** Every byte sequence has a deflate stream: [ReadAll] of the stream of
    stored blocks gives back the chunks. *)
Lemma ReadAll_storedStream (chunks : list (list byte)) :
  Forall (fun chunk => (N.of_nat (length chunk) < 65536)%N) chunks ->
  flate.ReadAll (storedStream chunks) = Ok (concat chunks).
Proof.
  intros Hc. pose proof (ReadAll_run (storedStream chunks)) as Hr.
  rewrite stored_facts.run_storedStream in Hr;
    [cbn [rev app] in Hr; congruence | exact Hc |].
  assert (Hlen : (length chunks < length (storedStream chunks))%nat).
  { clear. induction chunks as [| c cs IH];
      cbn [storedStream lenBytes app length]; [lia |].
    rewrite length_app. lia. }
  unfold flate.steps_for. lia.
Qed.

Lemma ReadAll_storedBlock (data : list byte) :
  (N.of_nat (length data) < 65536)%N ->
  flate.ReadAll (storedBlock data) = Ok data.
Proof.
  intros Hn. pose proof (ReadAll_run (storedBlock data)) as Hr.
  unfold flate.steps_for in Hr.
  change (2 + ?n)%nat with (S (S n)) in Hr.
  unfold storedBlock in Hr at 2. cbn [flate.run] in Hr.
  rewrite flate_facts.readBits_header in Hr.
  change (flate.N_of_bits (firstn 3 (flate.bits_of_byte x01))) with 1%N in Hr.
  pose proof (stored_facts.dataBlock_stored
                (skipn 3 (flate.bits_of_byte x01)) data [] [] Hn) as Hd.
  rewrite app_nil_r in Hd.
  change (N.shiftr 1 1 =? 0)%N with true in Hr. cbv iota in Hr.
  rewrite Hd in Hr.
  rewrite app_nil_r, rev_involutive in Hr.
  change (N.testbit 1 0) with true in Hr. cbv iota in Hr. congruence.
Qed.


(** ** The response writer *)




(** ** The handlers *)

Section HandlerFacts.
Context {X : Externals}.

(** The handler combinators, one step at a time. *)
Lemma orFail_call_Ok {A B} (e : Event) (a : A) (format : string)
  (k : A -> Handler B) (s : Exchange) :
  bind (orFail (call e (Ok a)) format) k s
  = k a (mkExchange (rw s) (trace s ++ [e])).
Proof. reflexivity. Qed.

Lemma orFail_call_Err {A B} (e : Event) (err : error) (format : string)
  (k : A -> Handler B) (s : Exchange) :
  bind (orFail (call e (Err err)) format) k s
  = (mkExchange (writeErr (rw s) err)
       (((trace s ++ [e]) ++ [Ev_Logf format err]) ++ [Ev_writeErr err]),
     None).
Proof. reflexivity. Qed.

Lemma call_authFn_step {B} (authFn : Authenticator) (r : http.Request)
  (k : result Session -> Handler B) (s : Exchange) w' res :
  authFn (rw s) r = (w', res) ->
  bind (call_authFn authFn r) k s
  = k res (mkExchange w' (trace s ++ [Ev_authFn r])).
Proof. intros H. unfold bind, call_authFn. rewrite H. reflexivity. Qed.

End HandlerFacts.

(** ** The redirect form *)

Lemma append_assoc (s1 s2 s3 : string) :
  (s1 +:+ s2) +:+ s3 = s1 +:+ (s2 +:+ s3).
Proof.
  induction s1 as [| c s1 IH]; [reflexivity |].
  change (String c ((s1 +:+ s2) +:+ s3) = String c (s1 +:+ (s2 +:+ s3))).
  rewrite IH. reflexivity.
Qed.

Lemma append_nil_r (s : string) : s +:+ EmptyString = s.
Proof.
  induction s as [| c s IH]; [reflexivity |].
  change (String c (s +:+ EmptyString) = String c s).
  rewrite IH. reflexivity.
Qed.

Lemma Parse_redirectFormTemplate :
  template.Parse redirectFormTemplate = Ok redirectFormTree.
Proof. vm_compute. reflexivity. Qed.

(** Executing the template puts the values of the form into the text as
    they are. *)
Lemma Execute_redirectFormTree (form : redirectForm) :
  template.Execute redirectFormTree (redirectForm_data form)
  = Ok (list_byte_of_string (RenderRedirectForm form)).
Proof.
  destruct form as [fa rs sr]. unfold template.Execute, RenderRedirectForm.
  cbn [FormAction RelayState SAMLResponse].
  assert (Hexec : template.execList redirectFormTree
                    (redirectForm_data (mkRedirectForm fa rs sr))
                  = Ok (formHead +:+ fa +:+ formPayload +:+ sr +:+
                        formPayloadEnd +:+
                        match rs with
                        | EmptyString => EmptyString
                        | _ => relayHead +:+ rs +:+ relayTail
                        end +:+ formTail)).
  { destruct rs as [| c rs];
      cbv -[String.append formHead formPayload formPayloadEnd relayHead
            relayTail formTail];
      rewrite ?append_assoc, ?append_nil_r; reflexivity. }
  rewrite Hexec. reflexivity.
Qed.

(** Case analysis on the next fallible call of a handler. *)
Ltac next_call :=
  first
    [ rewrite orFail_call_Ok
    | rewrite orFail_call_Err
    | rewrite Execute_redirectFormTree
    | match goal with
      | |- context [bind (orFail (call _ ?res) _) _ _] => destruct res eqn:?
      end ];
  cbn [fst rw trace app].

(** C9: [NewMiddleware] panics on a nil identity provider; on a non-nil
    one it returns a [Middleware] whose field [idp] is that provider, so
    the [idp] of every [Middleware] it returns is not nil. *)
Theorem NewMiddleware_nil_or_holds_idp `{Externals} :
  NewMiddleware None = Panic "IdP cannot be a nil value."
  /\ (forall p, NewMiddleware (Some p) = Return (mkMiddleware (Some p)))
  /\ (forall i m, NewMiddleware i = Return m -> idp m = i /\ idp m <> None).
Proof.
  split; [reflexivity | split; [reflexivity |]].
  intros [p|] m Hm; simpl in Hm; [| discriminate].
  injection Hm as <-. split; [reflexivity | discriminate].
Qed.

(** C3: when the authentication hook returns an error, the handler
    leaves the response writer exactly as the hook left it (it writes no
    byte and sets no status or header), and after logging the error it
    makes no further call. *)
Theorem ServeSSO_hook_error `{Externals} (m : Middleware)
  (authFn : Authenticator) (w w' : http.ResponseWriter) (r : http.Request)
  (err : error) :
  authFn w r = (w', Err err) ->
  rw (ServeSSO m authFn w r) = w'
  /\ trace (ServeSSO m authFn w r) = [Ev_authFn r; Ev_Logf "authFn: %v" err].
Proof.
  intros Hauth. unfold ServeSSO, ServeSSO_body.
  rewrite (call_authFn_step _ _ _ _ w' (Err err)) by exact Hauth.
  split; reflexivity.
Qed.

Lemma ServeSSO_hook_error_witness :
  rw (ServeSSO Demo.middleware Demo.rejectAll http.NewRecorder (Demo.request "s"))
  = http.WriteHeader 302 (http.Header_Set "Location" "/login" http.NewRecorder)
  /\ trace (ServeSSO Demo.middleware Demo.rejectAll http.NewRecorder
              (Demo.request "s"))
     = [Ev_authFn (Demo.request "s");
        Ev_Logf "authFn: %v" (errors_New "not logged in")].
Proof.
  apply (ServeSSO_hook_error Demo.middleware Demo.rejectAll http.NewRecorder
           _ (Demo.request "s") (errors_New "not logged in")).
  reflexivity.
Defined.

(** C8: when the identity provider fails to produce the metadata, the
    handler logs the error, calls [writeErr] and returns: the response is
    what [writeErr] wrote, and neither the XML declaration nor any other
    byte is written by the handler itself. *)
Theorem ServeMetadata_generation_error `{Externals} (m : Middleware)
  (w : http.ResponseWriter) (r : http.Request) (err : error) :
  idp_Metadata (idp m) = Err err ->
  ServeMetadata m w r
  = mkExchange (writeErr w err)
      [Ev_idp_Metadata; Ev_Logf "Failed to generate metadata: %v" err;
       Ev_writeErr err]
  /\ (forall b, ~ In (Ev_Write b) (trace (ServeMetadata m w r)))
  /\ (forall md, ~ In (Ev_xml_MarshalIndent_Metadata md)
                   (trace (ServeMetadata m w r))).
Proof.
  intros Hmd.
  assert (Heq : ServeMetadata m w r
    = mkExchange (writeErr w err)
        [Ev_idp_Metadata; Ev_Logf "Failed to generate metadata: %v" err;
         Ev_writeErr err]).
  { unfold ServeMetadata, ServeMetadata_body. rewrite Hmd.
    rewrite orFail_call_Err. reflexivity. }
  rewrite Heq. split; [reflexivity |].
  split; intros ? Hin; simpl in Hin;
    repeat destruct Hin as [Hin | Hin]; try discriminate Hin; exact Hin.
Qed.

Lemma ServeMetadata_generation_error_witness :
  ServeMetadata Demo.brokenMiddleware http.NewRecorder
    (Demo.request "s")
  = mkExchange (Demo.genericError http.NewRecorder (errors_New "no certificate"))
      [Ev_idp_Metadata;
       Ev_Logf "Failed to generate metadata: %v" (errors_New "no certificate");
       Ev_writeErr (errors_New "no certificate")].
Proof.
  apply (ServeMetadata_generation_error Demo.brokenMiddleware
           http.NewRecorder (Demo.request "s") (errors_New "no certificate")).
  reflexivity.
Defined.



(** [Values.Get] on a key that is absent, has no value, or has the empty
    string as its first value. *)
Lemma Get_absent_or_empty (v : gmap string (list string)) (key : string) :
  v !! key = None \/ v !! key = Some []
  \/ (exists vs, v !! key = Some (EmptyString :: vs)) ->
  url.Get v key = EmptyString.
Proof.
  unfold url.Get. intros [-> | [-> | [vs ->]]]; reflexivity.
Qed.

Lemma Get_first (v : gmap string (list string)) (key x : string)
  (vs : list string) :
  v !! key = Some (x :: vs) -> url.Get v key = x.
Proof. unfold url.Get. intros ->. reflexivity. Qed.

(** C10: when the query has no [SAMLRequest] parameter, or an empty one,
    the base64 step succeeds on the empty string with zero bytes, and the
    exchange fails at the decompression step: [flate] reports
    [io.ErrUnexpectedEOF], which the handler logs as a failure to read
    the request before it calls [writeErr]. *)
Theorem ServeSSO_missing_SAMLRequest `{Externals} (m : Middleware)
  (authFn : Authenticator) (w w1 : http.ResponseWriter) (r : http.Request)
  (sess : Session) :
  authFn w r = (w1, Ok sess) ->
  (http.URL_Query r !! "SAMLRequest" = None
   \/ http.URL_Query r !! "SAMLRequest" = Some []
   \/ exists vs, http.URL_Query r !! "SAMLRequest" = Some (EmptyString :: vs)) ->
  base64.DecodeString EmptyString = Ok []
  /\ flate.ReadAll [] = Err io_ErrUnexpectedEOF
  /\ ServeSSO m authFn w r
     = mkExchange (writeErr w1 io_ErrUnexpectedEOF)
         [Ev_authFn r; Ev_base64_DecodeString EmptyString; Ev_flate_ReadAll [];
          Ev_Logf "Failed to read SAMLRequest: %v" io_ErrUnexpectedEOF;
          Ev_writeErr io_ErrUnexpectedEOF].
Proof.
  intros Hauth Hq. apply Get_absent_or_empty in Hq.
  assert (Hb : base64.DecodeString EmptyString = Ok []) by reflexivity.
  assert (Hf : flate.ReadAll [] = Err io_ErrUnexpectedEOF) by reflexivity.
  split; [exact Hb | split; [exact Hf |]].
  unfold ServeSSO, ServeSSO_body.
  rewrite (call_authFn_step _ _ _ _ w1 (Ok sess)) by exact Hauth.
  cbv zeta. rewrite Hq, Hb, orFail_call_Ok, Hf, orFail_call_Err.
  reflexivity.
Qed.

Lemma ServeSSO_missing_SAMLRequest_witness :
  ServeSSO Demo.middleware Demo.acceptAll http.NewRecorder (http.mkRequest ∅)
  = mkExchange (Demo.genericError http.NewRecorder io_ErrUnexpectedEOF)
      [Ev_authFn (http.mkRequest ∅); Ev_base64_DecodeString EmptyString;
       Ev_flate_ReadAll [];
       Ev_Logf "Failed to read SAMLRequest: %v" io_ErrUnexpectedEOF;
       Ev_writeErr io_ErrUnexpectedEOF].
Proof.
  apply (ServeSSO_missing_SAMLRequest Demo.middleware Demo.acceptAll
           http.NewRecorder http.NewRecorder (http.mkRequest ∅) "alice").
  - reflexivity.
  - left. reflexivity.
Defined.

(** C2: after the hook has accepted the caller, the handler decodes the
    [SAMLRequest] parameter in three steps, in this order: base64
    decoding, decompression read to the end of the stream, XML
    unmarshaling.  A step is called only when the step before it
    succeeded; the first failure is logged with the message of its step
    ([DecodeError], [InflateError] or [XMLParseError] in the words of the
    specification), answered with [writeErr], and nothing is called after
    it.  When the three steps succeed the parsed request is handed to
    [MakeAssertion]. *)
Theorem ServeSSO_codec_steps `{Externals} (m : Middleware)
  (authFn : Authenticator) (w w1 : http.ResponseWriter) (r : http.Request)
  (sess : Session) :
  authFn w r = (w1, Ok sess) ->
  let raw := url.Get (http.URL_Query r) "SAMLRequest" in
  match base64.DecodeString raw with
  | Err e =>
      DecodeAuthnRequest raw = inl (DecodeError, e)
      /\ ServeSSO m authFn w r
         = mkExchange (writeErr w1 e)
             [Ev_authFn r; Ev_base64_DecodeString raw;
              Ev_Logf (codecMessage DecodeError) e; Ev_writeErr e]
  | Ok data =>
      match flate.ReadAll data with
      | Err e =>
          DecodeAuthnRequest raw = inl (InflateError, e)
          /\ ServeSSO m authFn w r
             = mkExchange (writeErr w1 e)
                 [Ev_authFn r; Ev_base64_DecodeString raw;
                  Ev_flate_ReadAll data;
                  Ev_Logf (codecMessage InflateError) e; Ev_writeErr e]
      | Ok buf =>
          match xml_Unmarshal buf with
          | Err e =>
              DecodeAuthnRequest raw = inl (XMLParseError, e)
              /\ ServeSSO m authFn w r
                 = mkExchange (writeErr w1 e)
                     [Ev_authFn r; Ev_base64_DecodeString raw;
                      Ev_flate_ReadAll data; Ev_xml_Unmarshal buf;
                      Ev_Logf (codecMessage XMLParseError) e; Ev_writeErr e]
          | Ok req =>
              DecodeAuthnRequest raw = inr req
              /\ exists rest,
                   trace (ServeSSO m authFn w r)
                   = [Ev_authFn r; Ev_base64_DecodeString raw;
                      Ev_flate_ReadAll data; Ev_xml_Unmarshal buf;
                      Ev_MakeAssertion
                        (newIdpAuthnRequest (idp m) r req) sess] ++ rest
          end
      end
  end.
Proof.
  intros Hauth raw. unfold DecodeAuthnRequest, ServeSSO, ServeSSO_body.
  rewrite (call_authFn_step _ _ _ _ w1 (Ok sess)) by exact Hauth.
  cbv zeta. fold raw.
  destruct (base64.DecodeString raw) as [data | e].
  2: { split; [reflexivity |]. rewrite orFail_call_Err. reflexivity. }
  rewrite orFail_call_Ok.
  destruct (flate.ReadAll data) as [buf | e].
  2: { split; [reflexivity |]. rewrite orFail_call_Err. reflexivity. }
  rewrite orFail_call_Ok.
  destruct (xml_Unmarshal buf) as [req | e].
  2: { split; [reflexivity |]. rewrite orFail_call_Err. reflexivity. }
  rewrite orFail_call_Ok. split; [reflexivity |].
  cbn [rw trace app].
  repeat next_call; cbn; eexists; reflexivity.
Qed.

Lemma ServeSSO_codec_steps_witness :
  DecodeAuthnRequest (H := Demo.externals) "!" = inl (DecodeError, base64_CorruptInputError)
  /\ ServeSSO Demo.middleware Demo.acceptAll http.NewRecorder
       (http.mkRequest (<["SAMLRequest" := ["!"]]> ∅))
     = mkExchange (Demo.genericError http.NewRecorder base64_CorruptInputError)
         [Ev_authFn (http.mkRequest (<["SAMLRequest" := ["!"]]> ∅));
          Ev_base64_DecodeString "!";
          Ev_Logf (codecMessage DecodeError) base64_CorruptInputError;
          Ev_writeErr base64_CorruptInputError].
Proof.
  exact (ServeSSO_codec_steps Demo.middleware Demo.acceptAll http.NewRecorder
           http.NewRecorder (http.mkRequest (<["SAMLRequest" := ["!"]]> ∅))
           "alice" eq_refl).
Defined.

(** C7: whenever the handler executes the form template, the relay state
    of the form is the value that [Values.Get] returned for the query
    parameter [RelayState], unchanged: the first value of the parameter
    when the request carries one. *)
Theorem ServeSSO_relay_state_verbatim `{Externals} (m : Middleware)
  (authFn : Authenticator) (w : http.ResponseWriter) (r : http.Request)
  (form : redirectForm) (v : string) (vs : list string) :
  http.URL_Query r !! "RelayState" = Some (v :: vs) ->
  In (Ev_template_Execute form) (trace (ServeSSO m authFn w r)) ->
  RelayState form = v.
Proof.
  intros Hq Hin. apply Get_first in Hq.
  unfold ServeSSO, ServeSSO_body in Hin.
  destruct (authFn w r) as [w1 [sess | err]] eqn:Hauth.
  - rewrite (call_authFn_step _ _ _ _ w1 (Ok sess)) in Hin by exact Hauth.
    cbv zeta in Hin. rewrite Hq in Hin. revert Hin.
    repeat next_call; cbn; intros Hin;
      repeat (destruct Hin as [Hin | Hin]; try discriminate Hin);
      try contradiction; injection Hin as <-; reflexivity.
  - rewrite (call_authFn_step _ _ _ _ w1 (Err err)) in Hin by exact Hauth.
    cbn in Hin. destruct Hin as [Hin | [Hin | []]]; discriminate Hin.
Qed.


Lemma ServeSSO_relay_state_verbatim_witness :
  RelayState
    (mkRedirectForm "https://sp.example.com/acs" "a<b"
       "PGRvYz4KCXJlc3BvbnNlCjwvZG9jPg==") = "a<b".
Proof.
  apply (ServeSSO_relay_state_verbatim Demo.middleware Demo.acceptAll
           http.NewRecorder (Demo.request "a<b") _ "a<b" []).
  - reflexivity.
  - apply (nth_error_In _ 9). reflexivity.
Defined.



(** Every document has a deflate stream. *)
Lemma deflate_stream_exists (doc : list byte) :
  exists c, flate.ReadAll c = Ok doc.
Proof.
  exists (storedStream (map (fun b => [b]) doc)).
  rewrite ReadAll_storedStream.
  - f_equal. induction doc as [| b doc IH]; [reflexivity |].
    cbn [map concat app]. rewrite IH. reflexivity.
  - induction doc as [| b doc IH]; cbn [map]; constructor;
      [reflexivity | exact IH].
Qed.

(** A stored block cut short is reported as [io.ErrUnexpectedEOF]. *)
Lemma ReadAll_storedBlock_truncated (data : list byte) (k : nat) :
  (N.of_nat (length data) < 65536)%N ->
  (k < length (storedBlock data))%nat ->
  flate.ReadAll (firstn k (storedBlock data)) = Err io_ErrUnexpectedEOF.
Proof.
  intros Hn Hk. unfold storedBlock in *. cbn [length] in Hk.
  destruct k as [| k]; [reflexivity |]. cbn [firstn].
  pose proof (ReadAll_run (x01 :: firstn k (lenBytes (N.of_nat (length data))
                                              ++ data))) as Hr.
  unfold flate.steps_for in Hr. change (2 + ?n)%nat with (S (S n)) in Hr.
  cbn [flate.run] in Hr.
  rewrite flate_facts.readBits_header in Hr.
  change (flate.N_of_bits (firstn 3 (flate.bits_of_byte x01))) with 1%N in Hr.
  change (N.shiftr 1 1 =? 0)%N with true in Hr. cbv iota in Hr.
  unfold lenBytes in *. cbn [app length] in Hk.
  destruct k as [| [| [| [| k]]]]; cbn [firstn app] in *;
    try (cbv [flate.dataBlock flate.input] in Hr; congruence).
  unfold flate.dataBlock in Hr. cbn [flate.input] in Hr.
  rewrite (stored_facts.le16 _ Hn),
    (stored_facts.le16 _ (stored_facts.lxor_16 _ Hn)), N.eqb_refl in Hr.
  cbn [negb] in Hr. rewrite Nat2N.id in Hr.
  replace (length (firstn k data) <? length data)%nat with true in Hr
    by (symmetry; apply Nat.ltb_lt; rewrite length_firstn; lia).
  congruence.
Qed.

(** The payload of the form: base64-decoding the [SAMLResponse] field
    gives back the bytes that [xml.MarshalIndent] produced for the
    response. *)
Lemma ServeSSO_payload_decodes `{Externals} (m : Middleware)
  (authFn : Authenticator) (w : http.ResponseWriter) (r : http.Request)
  (form : redirectForm) :
  In (Ev_template_Execute form) (trace (ServeSSO m authFn w r)) ->
  exists resp buf,
    In (Ev_xml_MarshalIndent_Response resp) (trace (ServeSSO m authFn w r))
    /\ xml_MarshalIndent_Response resp EmptyString tab = Ok buf
    /\ base64.DecodeString (SAMLResponse form) = Ok buf.
Proof.
  unfold ServeSSO, ServeSSO_body.
  destruct (authFn w r) as [w1 [sess | err]] eqn:Hauth.
  - rewrite (call_authFn_step _ _ _ _ w1 (Ok sess)) by exact Hauth.
    cbv zeta. rewrite Parse_redirectFormTemplate.
    repeat next_call; cbn; intros Hin;
      repeat (destruct Hin as [Hin | Hin]; try discriminate Hin);
      try contradiction.
    injection Hin as <-. cbn [SAMLResponse].
    eexists _, _. split; [do 7 right; left; reflexivity |].
    split; [eassumption | apply DecodeString_EncodeToString].
  - rewrite (call_authFn_step _ _ _ _ w1 (Err err)) by exact Hauth.
    cbn. intros [Hin | [Hin | []]]; discriminate Hin.
Qed.




Lemma ServeSSO_payload_decodes_witness :
  exists resp buf,
    In (Ev_xml_MarshalIndent_Response resp)
      (trace (ServeSSO Demo.middleware Demo.acceptAll http.NewRecorder
                (Demo.request "s")))
    /\ xml_MarshalIndent_Response resp EmptyString tab = Ok buf
    /\ base64.DecodeString
         (SAMLResponse
            (mkRedirectForm "https://sp.example.com/acs" "s"
               "PGRvYz4KCXJlc3BvbnNlCjwvZG9jPg==")) = Ok buf.
Proof.
  apply (ServeSSO_payload_decodes Demo.middleware Demo.acceptAll
           http.NewRecorder (Demo.request "s")).
  apply (nth_error_In _ 9). reflexivity.
Defined.

(** * Further properties of the handlers *)



(** X3: after the request is decoded the handler calls [MakeAssertion],
    [MarshalAssertion], [MakeResponse] and [xml.MarshalIndent] in this
    order, each on the value the step before it returned; the first
    failure is logged with the message of its step, answered with
    [writeErr] on the writer the hook left, and no later step is
    called. *)
Theorem ServeSSO_collaborator_steps `{Externals} (m : Middleware)
  (authFn : Authenticator) (w w1 : http.ResponseWriter) (r : http.Request)
  (sess : Session) (data buf : list byte) (req : AuthnRequest) :
  authFn w r = (w1, Ok sess) ->
  base64.DecodeString (url.Get (http.URL_Query r) "SAMLRequest") = Ok data ->
  flate.ReadAll data = Ok buf ->
  xml_Unmarshal buf = Ok req ->
  let a0 := newIdpAuthnRequest (idp m) r req in
  let decoded :=
    [Ev_authFn r;
     Ev_base64_DecodeString (url.Get (http.URL_Query r) "SAMLRequest");
     Ev_flate_ReadAll data; Ev_xml_Unmarshal buf; Ev_MakeAssertion a0 sess] in
  match MakeAssertion a0 sess with
  | Err e =>
      ServeSSO m authFn w r
      = mkExchange (writeErr w1 e)
          (decoded ++ [Ev_Logf "Failed to make assertion: %v" e; Ev_writeErr e])
  | Ok a1 =>
      match MarshalAssertion a1 with
      | Err e =>
          ServeSSO m authFn w r
          = mkExchange (writeErr w1 e)
              (decoded ++ [Ev_MarshalAssertion a1;
                           Ev_Logf "Failed to marshal assertion: %v" e;
                           Ev_writeErr e])
      | Ok a2 =>
          match MakeResponse a2 with
          | Err e =>
              ServeSSO m authFn w r
              = mkExchange (writeErr w1 e)
                  (decoded ++ [Ev_MarshalAssertion a1; Ev_MakeResponse a2;
                               Ev_Logf "Failed to build response: %v" e;
                               Ev_writeErr e])
          | Ok a3 =>
              match xml_MarshalIndent_Response (get_Response a3)
                      EmptyString tab with
              | Err e =>
                  ServeSSO m authFn w r
                  = mkExchange (writeErr w1 e)
                      (decoded ++
                       [Ev_MarshalAssertion a1; Ev_MakeResponse a2;
                        Ev_xml_MarshalIndent_Response (get_Response a3);
                        Ev_Logf "Failed to format response: %v" e;
                        Ev_writeErr e])
              | Ok out =>
                  exists rest,
                    trace (ServeSSO m authFn w r)
                    = decoded ++
                      [Ev_MarshalAssertion a1; Ev_MakeResponse a2;
                       Ev_xml_MarshalIndent_Response (get_Response a3)]
                      ++ rest
              end
          end
      end
  end.
Proof.
  intros Hauth Hb Hf Hx a0 decoded. subst a0 decoded.
  unfold ServeSSO, ServeSSO_body.
  rewrite (call_authFn_step _ _ _ _ w1 (Ok sess)) by exact Hauth.
  cbv zeta. rewrite Parse_redirectFormTemplate.
  rewrite Hb, orFail_call_Ok. cbn [rw trace app].
  rewrite Hf, orFail_call_Ok. cbn [rw trace app].
  rewrite Hx, orFail_call_Ok. cbn [rw trace app].
  destruct (MakeAssertion _ sess) as [a1 | e];
    [rewrite orFail_call_Ok | rewrite orFail_call_Err; reflexivity].
  cbn [rw trace app].
  destruct (MarshalAssertion a1) as [a2 | e];
    [rewrite orFail_call_Ok | rewrite orFail_call_Err; reflexivity].
  cbn [rw trace app].
  destruct (MakeResponse a2) as [a3 | e];
    [rewrite orFail_call_Ok | rewrite orFail_call_Err; reflexivity].
  cbn [rw trace app].
  destruct (xml_MarshalIndent_Response _ _ _) as [out | e];
    [rewrite orFail_call_Ok | rewrite orFail_call_Err; reflexivity].
  cbn [rw trace app].
  repeat next_call. cbn. eexists. reflexivity.
Qed.

Lemma ServeSSO_collaborator_steps_witness :
  exists rest,
    trace (ServeSSO Demo.middleware Demo.acceptAll http.NewRecorder
             (Demo.request "s"))
    = [Ev_authFn (Demo.request "s");
       Ev_base64_DecodeString
         (url.Get (http.URL_Query (Demo.request "s")) "SAMLRequest");
       Ev_flate_ReadAll (storedBlock Demo.document);
       Ev_xml_Unmarshal Demo.document;
       Ev_MakeAssertion
         (newIdpAuthnRequest (idp Demo.middleware) (Demo.request "s")
            "<AuthnRequest ID=abc/>") "alice"]
      ++ [@Ev_MarshalAssertion Demo.externals
            (Demo.mkRequest (Some "idp") (Demo.request "s")
               "<AuthnRequest ID=abc/>" "https://sp.example.com/acs"
               EmptyString);
          @Ev_MakeResponse Demo.externals
            (Demo.mkRequest (Some "idp") (Demo.request "s")
               "<AuthnRequest ID=abc/>" "https://sp.example.com/acs"
               EmptyString);
          @Ev_xml_MarshalIndent_Response Demo.externals "response"]
      ++ rest.
Proof.
  exact (ServeSSO_collaborator_steps Demo.middleware Demo.acceptAll
           http.NewRecorder http.NewRecorder (Demo.request "s") "alice"
           (storedBlock Demo.document) Demo.document "<AuthnRequest ID=abc/>"
           eq_refl eq_refl eq_refl eq_refl).
Defined.

(** X4: every run of the handler ends in one of three ways.  Either the
    hook failed, and the handler only logged; or a later step failed, and
    the handler logged that error once and passed the same error to
    [writeErr] once, without setting a header or writing itself; or every
    step succeeded, and the handler set the content type and wrote the
    output of the template once, without logging or calling [writeErr].  The hook
    is called first and only once; between it and the end there are only
    calls that do not touch the response. *)
Theorem ServeSSO_exits `{Externals} (m : Middleware)
  (authFn : Authenticator) (w : http.ResponseWriter) (r : http.Request) :
  (exists err,
     snd (authFn w r) = Err err
     /\ ServeSSO m authFn w r
        = mkExchange (fst (authFn w r))
            [Ev_authFn r; Ev_Logf "authFn: %v" err])
  \/ (exists calls format err,
        forallb is_call calls = true
        /\ ServeSSO m authFn w r
           = mkExchange (writeErr (fst (authFn w r)) err)
               (Ev_authFn r :: calls
                ++ [Ev_Logf format err; Ev_writeErr err]))
  \/ (exists calls b,
        forallb is_call calls = true
        /\ ServeSSO m authFn w r
           = mkExchange
               (http.Write b
                  (http.Header_Set "Content-Type" "text/html"
                     (fst (authFn w r))))
               (Ev_authFn r :: calls
                ++ [Ev_Header_Set "Content-Type" "text/html"; Ev_Write b])).
Proof.
  unfold ServeSSO, ServeSSO_body.
  destruct (authFn w r) as [w1 [sess | err]] eqn:Hauth; cbn [fst snd].
  - rewrite (call_authFn_step _ _ _ _ w1 (Ok sess)) by exact Hauth.
    cbv zeta. rewrite Parse_redirectFormTemplate. right.
    repeat next_call; cbn [bind w_Header_Set w_Write fst rw trace app];
      match goal with
      | |- context [@eq Exchange (mkExchange _ (Ev_authFn _ :: ?t))] =>
          first
            [ left; exists (removelast (removelast t)); eexists _, _;
              split; reflexivity
            | right; exists (removelast (removelast t)); eexists;
              split; reflexivity ]
      end.
  - rewrite (call_authFn_step _ _ _ _ w1 (Err err)) by exact Hauth.
    left. exists err. split; reflexivity.
Qed.

(** X5: when the metadata is generated but [xml.MarshalIndent] fails,
    the handler logs the error, calls [writeErr] and returns: it sets no
    header and writes neither the XML declaration nor any other byte
    itself. *)
Theorem ServeMetadata_marshal_error `{Externals} (m : Middleware)
  (w : http.ResponseWriter) (r : http.Request) (md : Metadata) (err : error) :
  idp_Metadata (idp m) = Ok md ->
  xml_MarshalIndent_Metadata md EmptyString tab = Err err ->
  ServeMetadata m w r
  = mkExchange (writeErr w err)
      [Ev_idp_Metadata; Ev_xml_MarshalIndent_Metadata md;
       Ev_Logf "Failed to build metadata: %v" err; Ev_writeErr err].
Proof.
  intros Hmd Hout. unfold ServeMetadata, ServeMetadata_body.
  rewrite Hmd, orFail_call_Ok, Hout, orFail_call_Err. reflexivity.
Qed.

(** X6: [ServeMetadata] never sends a partial document.  Either it logs
    one error and passes that error to [writeErr], setting no header and
    writing nothing itself; or both steps succeeded and it sets the
    content type and writes the declaration and the whole marshaled
    document, with no log entry and no call of [writeErr]. *)
Theorem ServeMetadata_exits `{Externals} (m : Middleware)
  (w : http.ResponseWriter) (r : http.Request) :
  (exists calls format err,
     forallb is_call calls = true
     /\ ServeMetadata m w r
        = mkExchange (writeErr w err)
            (calls ++ [Ev_Logf format err; Ev_writeErr err]))
  \/ (exists md out,
        idp_Metadata (idp m) = Ok md
        /\ xml_MarshalIndent_Metadata md EmptyString tab = Ok out
        /\ ServeMetadata m w r
           = mkExchange
               (http.Write out
                  (http.Write (list_byte_of_string xml_declaration)
                     (http.Header_Set "Content-Type"
                        "application/xml; charset=utf8" w)))
               [Ev_idp_Metadata; Ev_xml_MarshalIndent_Metadata md;
                Ev_Header_Set "Content-Type" "application/xml; charset=utf8";
                Ev_Write (list_byte_of_string xml_declaration);
                Ev_Write out]).
Proof.
  unfold ServeMetadata, ServeMetadata_body.
  destruct (idp_Metadata (idp m)) as [md | err] eqn:Hmd.
  - rewrite orFail_call_Ok.
    destruct (xml_MarshalIndent_Metadata md EmptyString tab)
      as [out | err] eqn:Hout.
    + rewrite orFail_call_Ok. right. exists md, out.
      split; [reflexivity | split; [exact Hout | reflexivity]].
    + rewrite orFail_call_Err. left.
      exists [Ev_idp_Metadata; Ev_xml_MarshalIndent_Metadata md].
      eexists _, _. split; reflexivity.
  - rewrite orFail_call_Err. left. exists [Ev_idp_Metadata].
    eexists _, _. split; reflexivity.
Qed.

(** X7: [NewLoginRequest] returns a request exactly when the metadata of
    the service provider could be fetched.  The request then holds the
    URL, the middleware and the hook it was given and the fetched
    metadata, and nothing is logged; otherwise the caller gets the error
    of the fetch itself, logged once. *)
Theorem NewLoginRequest_result `{Externals} (SPMetadata : Type)
  (GetMetadata : string -> result SPMetadata) (m : Middleware)
  (url : string) (authFn : Authenticator) :
  match GetMetadata url with
  | Ok md =>
      Login.NewLoginRequest SPMetadata GetMetadata m url authFn
      = ([], Ok (Login.mkLoginRequest SPMetadata url m authFn md))
  | Err err =>
      Login.NewLoginRequest SPMetadata GetMetadata m url authFn
      = ([Ev_Logf "Failed to get metadata: %v" err], Err err)
  end
  /\ forall lr,
       snd (Login.NewLoginRequest SPMetadata GetMetadata m url authFn) = Ok lr ->
       Login.spMetadataURL SPMetadata lr = url
       /\ Login.m SPMetadata lr = m
       /\ Login.authFn SPMetadata lr = authFn
       /\ GetMetadata url = Ok (Login.metadata SPMetadata lr)
       /\ fst (Login.NewLoginRequest SPMetadata GetMetadata m url authFn) = [].
Proof.
  unfold Login.NewLoginRequest.
  destruct (GetMetadata url) as [md | err]; split; try reflexivity;
    intros lr Hlr; cbn in Hlr; [| discriminate].
  injection Hlr as <-. repeat split.
Qed.

Lemma ServeMetadata_marshal_error_witness :
  ServeMetadata DemoStrict.middleware http.NewRecorder (Demo.request "s")
  = mkExchange
      (Demo.genericError http.NewRecorder
         (errors_New "xml: unsupported type"))
      [Ev_idp_Metadata; @Ev_xml_MarshalIndent_Metadata DemoStrict.externals "idp";
       Ev_Logf "Failed to build metadata: %v"
         (errors_New "xml: unsupported type");
       Ev_writeErr (errors_New "xml: unsupported type")].
Proof.
  apply (ServeMetadata_marshal_error DemoStrict.middleware http.NewRecorder
           (Demo.request "s") "idp" (errors_New "xml: unsupported type"));
    reflexivity.
Defined.

(** * Further properties of the codecs the handlers call *)

Module base64_newlines.
Import base64.

Lemma isNewline_cases (c : byte) :
  isNewline c = true -> c = x0a \/ c = x0d.
Proof.
  unfold isNewline. intros Hc. apply orb_true_iff in Hc.
  destruct Hc as [Hc | Hc]; apply Byte.byte_dec_bl in Hc; auto.
Qed.

Lemma decodeMap_newline (c : byte) : isNewline c = true -> decodeMap c = None.
Proof. intros Hc. destruct (isNewline_cases c Hc) as [-> | ->]; reflexivity. Qed.

(** Skipping newlines in a list with one more newline in it: the results
    are the same, or they start after the same prefix. *)
Lemma skipNewlines_insert (c : byte) (l1 l2 : list byte) :
  isNewline c = true ->
  skipNewlines (l1 ++ c :: l2) = skipNewlines (l1 ++ l2)
  \/ exists x r,
       skipNewlines (l1 ++ c :: l2) = x :: r ++ c :: l2
       /\ skipNewlines (l1 ++ l2) = x :: r ++ l2.
Proof.
  intros Hc. induction l1 as [| a l1 IH]; cbn [app skipNewlines].
  - rewrite Hc. left. reflexivity.
  - destruct (isNewline a); [exact IH |].
    right. exists a, l1. split; reflexivity.
Qed.

Lemma afterPadding_insert (c : byte) (l1 l2 out : list byte) :
  isNewline c = true ->
  afterPadding (l1 ++ c :: l2) out = afterPadding (l1 ++ l2) out.
Proof.
  intros Hc. unfold afterPadding.
  destruct (skipNewlines_insert c l1 l2 Hc) as [-> | [x [r [-> ->]]]];
    reflexivity.
Qed.

Lemma decode_insert (c : byte) (l2 : list byte) :
  isNewline c = true ->
  forall l1 dbuf out,
    decode (l1 ++ c :: l2) dbuf out = decode (l1 ++ l2) dbuf out.
Proof.
  intros Hc. induction l1 as [| a l1 IH]; intros dbuf out; cbn [app decode].
  - rewrite (decodeMap_newline c Hc), Hc. reflexivity.
  - destruct (decodeMap a) as [v |].
    + destruct (Nat.eqb (length dbuf) 3); apply IH.
    + destruct (isNewline a); [apply IH |].
      destruct (negb (Byte.eqb a padChar)); [reflexivity |].
      destruct (length dbuf) as [| [| [| [| n]]]]; try reflexivity.
      * destruct (skipNewlines_insert c l1 l2 Hc) as [-> | [x [r [-> ->]]]];
          [reflexivity |].
        destruct (Byte.eqb x padChar); [| reflexivity].
        apply afterPadding_insert. exact Hc.
      * apply afterPadding_insert. exact Hc.
Qed.

Lemma list_byte_of_string_app (s1 s2 : string) :
  list_byte_of_string (s1 +:+ s2)
  = list_byte_of_string s1 ++ list_byte_of_string s2.
Proof.
  induction s1 as [| a s1 IH]; [reflexivity |].
  change (list_byte_of_string (String a (s1 +:+ s2))
          = list_byte_of_string (String a s1) ++ list_byte_of_string s2).
  unfold list_byte_of_string in *. cbn [list_ascii_of_string map app].
  rewrite IH. reflexivity.
Qed.

End base64_newlines.

(** X8: [DecodeString] ignores line breaks: a line feed or a carriage
    return put anywhere into the encoded text changes neither the decoded
    bytes nor whether the decoding fails. *)
Theorem DecodeString_ignores_line_breaks (s1 s2 : string) :
  base64.DecodeString (s1 +:+ nl +:+ s2) = base64.DecodeString (s1 +:+ s2)
  /\ base64.DecodeString (s1 +:+ String "013"%char s2)
     = base64.DecodeString (s1 +:+ s2).
Proof.
  unfold base64.DecodeString.
  rewrite !base64_newlines.list_byte_of_string_app.
  split.
  - change (list_byte_of_string (nl +:+ s2))
      with (x0a :: list_byte_of_string s2).
    apply base64_newlines.decode_insert. reflexivity.
  - change (list_byte_of_string (String "013"%char s2))
      with (x0d :: list_byte_of_string s2).
    apply base64_newlines.decode_insert. reflexivity.
Qed.

(** X9: [DecodeString] inverts [EncodeToString], so the encoding loses
    nothing: two byte sequences with the same encoding are equal. *)
Theorem base64_round_trip (bs bs' : list byte) :
  base64.DecodeString (base64.EncodeToString bs) = Ok bs
  /\ (base64.EncodeToString bs = base64.EncodeToString bs' -> bs = bs').
Proof.
  assert (Hrt : forall l, base64.DecodeString (base64.EncodeToString l) = Ok l).
  { intros l. unfold base64.DecodeString, base64.EncodeToString.
    rewrite list_byte_of_string_of_list_byte.
    apply (base64_facts.decode_Encode l []). }
  split; [apply Hrt |].
  intros Heq. pose proof (Hrt bs) as H1. rewrite Heq, Hrt in H1.
  injection H1 as ->. reflexivity.
Qed.

Module flate_trailing.
Import flate.

Lemma avail_extend (junk : list byte) (r : reader) :
  (avail r <= avail (extend junk r))%nat.
Proof. unfold avail, extend. cbn [bitbuf input]. rewrite length_app. lia. Qed.

Lemma fill_extend (junk : list byte) (n : nat) (inp : list byte) :
  forall buf buf' inp',
    fill n buf inp = Ok (buf', inp') ->
    fill n buf (inp ++ junk) = Ok (buf', inp' ++ junk).
Proof.
  induction inp as [| c inp IH]; intros buf buf' inp' H; cbn [fill] in H;
    destruct (n <=? length buf)%nat eqn:Hn; try discriminate H.
  - injection H as <- <-. apply flate_facts.fill_enough.
    apply Nat.leb_le. exact Hn.
  - injection H as <- <-. apply flate_facts.fill_enough.
    apply Nat.leb_le. exact Hn.
  - cbn [app fill]. rewrite Hn. apply IH. exact H.
Qed.

Lemma readBits_extend (junk : list byte) (n : nat) (r r' : reader) (v : N) :
  readBits n r = Ok (v, r') ->
  readBits n (extend junk r) = Ok (v, extend junk r').
Proof.
  unfold readBits, extend. cbn [bitbuf input].
  destruct (fill n (bitbuf r) (input r)) as [[buf inp] | e] eqn:Hf;
    [| discriminate].
  rewrite (fill_extend junk _ _ _ _ _ Hf).
  intros H. injection H as <- <-. reflexivity.
Qed.

Lemma decodeSym_extend (junk : list byte) (syms cnts : list N) :
  forall code first index r v r',
    decodeSym syms cnts code first index r = Ok (v, r') ->
    decodeSym syms cnts code first index (extend junk r)
    = Ok (v, extend junk r').
Proof.
  induction cnts as [| count cnts IH]; intros code first index r v r' H;
    cbn [decodeSym] in H |- *; [discriminate |].
  destruct (readBits 1 r) as [[bit r1] | e] eqn:Hb; [| discriminate].
  rewrite (readBits_extend junk _ _ _ _ Hb).
  destruct (code + bit <? first + count)%N.
  - injection H as <- <-. reflexivity.
  - apply IH. exact H.
Qed.

Lemma huffSym_extend (junk : list byte) (h : huffmanDecoder)
  (r r' : reader) (v : N) :
  huffSym h r = Ok (v, r') ->
  huffSym h (extend junk r) = Ok (v, extend junk r').
Proof.
  unfold huffSym. destruct (avail r <? hmin h)%nat eqn:Ha; [discriminate |].
  apply Nat.ltb_ge in Ha. pose proof (avail_extend junk r).
  replace (avail (extend junk r) <? hmin h)%nat with false
    by (symmetry; apply Nat.ltb_ge; lia).
  apply decodeSym_extend.
Qed.

Lemma readCodeLens_extend (junk : list byte) (k : nat) :
  forall r vs r',
    readCodeLens k r = Ok (vs, r') ->
    readCodeLens k (extend junk r) = Ok (vs, extend junk r').
Proof.
  induction k as [| k IH]; intros r vs r' H; cbn [readCodeLens] in H |- *.
  - injection H as <- <-. reflexivity.
  - destruct (readBits 3 r) as [[v r1] | e] eqn:Hb; [| discriminate].
    rewrite (readBits_extend junk _ _ _ _ Hb).
    destruct (readCodeLens k r1) as [[vs' r2] | e] eqn:Hr; [| discriminate].
    rewrite (IH _ _ _ Hr). injection H as <- <-. reflexivity.
Qed.

Lemma readLengths_extend (junk : list byte) (h : huffmanDecoder) (k : nat) :
  forall pend b acc r bits r',
    readLengths h k pend b acc r = Ok (bits, r') ->
    readLengths h k pend b acc (extend junk r) = Ok (bits, extend junk r').
Proof.
  induction k as [| k IH]; intros pend b acc r bits r' H;
    cbn [readLengths] in H |- *.
  - injection H as <- <-. reflexivity.
  - destruct pend as [| p]; [| apply IH; exact H].
    destruct (huffSym h r) as [[x r1] | e] eqn:Hs; [| discriminate].
    rewrite (huffSym_extend junk _ _ _ _ Hs).
    destruct (x <? 16)%N; [apply IH; exact H |].
    destruct (if (x =? 16)%N then _ else _) as [[[rep0 nb] b'] | e];
      [| discriminate].
    destruct ((x =? 16)%N && Nat.eqb (length acc) 0); [discriminate |].
    destruct (readBits nb r1) as [[extra r2] | e] eqn:Hb; [| discriminate].
    rewrite (readBits_extend junk _ _ _ _ Hb).
    destruct (S k <? N.to_nat (rep0 + extra))%nat; [discriminate |].
    apply IH. exact H.
Qed.

Lemma readHuffman_extend (junk : list byte) (r r' : reader)
  (hl hd : huffmanDecoder) :
  readHuffman r = Ok (hl, hd, r') ->
  readHuffman (extend junk r) = Ok (hl, hd, extend junk r').
Proof.
  unfold readHuffman.
  destruct (readBits 14 r) as [[hdr r1] | e] eqn:Hb; [| discriminate].
  rewrite (readBits_extend junk _ _ _ _ Hb).
  destruct (286 <? _)%N; [discriminate |].
  destruct (30 <? _)%N; [discriminate |].
  destruct (readCodeLens _ r1) as [[vs r2] | e] eqn:Hc; [| discriminate].
  rewrite (readCodeLens_extend junk _ _ _ _ Hc).
  destruct (init (codebits vs)) as [h1 |]; [| discriminate].
  destruct (readLengths h1 _ _ _ _ r2) as [[bits r3] | e] eqn:Hl;
    [| discriminate].
  rewrite (readLengths_extend junk _ _ _ _ _ _ _ _ Hl).
  destruct (init (firstn _ bits)) as [hl0 |]; [| discriminate].
  destruct (init (skipn _ bits)) as [hd0 |]; [| discriminate].
  intros H. injection H as <- <- <-. reflexivity.
Qed.

Lemma readDist_extend (junk : list byte) (hd : option huffmanDecoder)
  (r r' : reader) (d : N) :
  readDist hd r = Ok (d, r') ->
  readDist hd (extend junk r) = Ok (d, extend junk r').
Proof.
  unfold readDist.
  destruct (readDistSym hd r) as [[dist r1] | e] eqn:Hs; [| discriminate].
  assert (Hs' : readDistSym hd (extend junk r) = Ok (dist, extend junk r1)).
  { unfold readDistSym in Hs |- *. destruct hd as [h |].
    - apply huffSym_extend. exact Hs.
    - unfold extend at 1 2. cbn [bitbuf input].
      destruct (fill 5 (bitbuf r) (input r)) as [[buf inp] | e] eqn:Hf;
        [| discriminate].
      rewrite (fill_extend junk _ _ _ _ _ Hf).
      injection Hs as <- <-. reflexivity. }
  rewrite Hs'.
  destruct (dist <? 4)%N; [intros H; injection H as <- <-; reflexivity |].
  destruct (dist <? 30)%N; [| discriminate].
  destruct (readBits _ r1) as [[bits r2] | e] eqn:Hb; [| discriminate].
  rewrite (readBits_extend junk _ _ _ _ Hb).
  intros H. injection H as <- <-. reflexivity.
Qed.

Lemma dataBlock_extend (junk : list byte) (r r' : reader)
  (hist hist' : list byte) :
  dataBlock r hist = Ok (r', hist') ->
  dataBlock (extend junk r) hist = Ok (extend junk r', hist').
Proof.
  unfold dataBlock, extend at 1. cbn [input].
  destruct (input r) as [| b0 [| b1 [| b2 [| b3 inp]]]] eqn:Hi;
    try discriminate.
  cbn [app].
  destruct (negb _); [discriminate |].
  destruct (length inp <? _)%nat eqn:Hlen; [discriminate |].
  apply Nat.ltb_ge in Hlen.
  replace (length (inp ++ junk) <? _)%nat with false
    by (symmetry; apply Nat.ltb_ge; rewrite length_app; lia).
  intros H. injection H as <- <-. unfold extend. cbn [bitbuf input].
  rewrite firstn_app, skipn_app.
  replace (_ - length inp)%nat with 0%nat by lia.
  cbn [firstn skipn]. rewrite app_nil_r. reflexivity.
Qed.

(** A run that ends with an output ends with the same output when bytes
    follow the input. *)
Lemma run_extend (junk : list byte) (fuel : nat) :
  forall st final r hist out,
    run fuel st final r hist = Some (Ok out) ->
    run fuel st final (extend junk r) hist = Some (Ok out).
Proof.
  induction fuel as [| fuel IH]; intros st final r hist out H;
    [discriminate |].
  cbn [run] in H |- *. destruct st as [| hl hd].
  - destruct (readBits 3 r) as [[hdr r1] | e] eqn:Hb; [| discriminate].
    rewrite (readBits_extend junk _ _ _ _ Hb).
    destruct (N.shiftr hdr 1 =? 0)%N.
    { destruct (dataBlock r1 hist) as [[r2 hist'] | e] eqn:Hd;
        [| discriminate].
      rewrite (dataBlock_extend junk _ _ _ _ Hd).
      destruct (N.testbit hdr 0); [exact H | apply IH; exact H]. }
    destruct (N.shiftr hdr 1 =? 1)%N; [apply IH; exact H |].
    destruct (N.shiftr hdr 1 =? 2)%N; [| discriminate].
    destruct (readHuffman r1) as [[[hl hd] r2] | e] eqn:Hh; [| discriminate].
    rewrite (readHuffman_extend junk _ _ _ _ Hh). apply IH. exact H.
  - destruct (huffSym hl r) as [[v r1] | e] eqn:Hs; [| discriminate].
    rewrite (huffSym_extend junk _ _ _ _ Hs).
    destruct (v <? 256)%N; [apply IH; exact H |].
    destruct (v =? 256)%N.
    { destruct final; [exact H | apply IH; exact H]. }
    destruct (lengthCode v) as [[len0 n] |]; [| discriminate].
    destruct (readBits n r1) as [[extra r2] | e] eqn:Hb; [| discriminate].
    rewrite (readBits_extend junk _ _ _ _ Hb).
    destruct (readDist hd r2) as [[dist r3] | e] eqn:Hd; [| discriminate].
    rewrite (readDist_extend junk _ _ _ _ Hd).
    destruct (length hist <? N.to_nat dist)%nat; [discriminate |].
    apply IH. exact H.
Qed.

(** More steps do not change a result. *)
Lemma run_more_fuel (fuel : nat) :
  forall st final r hist res,
    run fuel st final r hist = Some res ->
    run (S fuel) st final r hist = Some res.
Proof.
  induction fuel as [| fuel IH]; intros st final r hist res H;
    [discriminate |].
  cbn [run] in H. remember (S fuel) as fuel1 eqn:Hfuel. cbn [run].
  subst fuel1. destruct st as [| hl hd].
  - destruct (readBits 3 r) as [[hdr r1] | e]; [| exact H].
    destruct (N.shiftr hdr 1 =? 0)%N.
    { destruct (dataBlock r1 hist) as [[r2 hist'] | e]; [| exact H].
      destruct (N.testbit hdr 0); [exact H | apply IH; exact H]. }
    destruct (N.shiftr hdr 1 =? 1)%N; [apply IH; exact H |].
    destruct (N.shiftr hdr 1 =? 2)%N; [| exact H].
    destruct (readHuffman r1) as [[[hl hd] r2] | e]; [| exact H].
    apply IH. exact H.
  - destruct (huffSym hl r) as [[v r1] | e]; [| exact H].
    destruct (v <? 256)%N; [apply IH; exact H |].
    destruct (v =? 256)%N.
    { destruct final; [exact H | apply IH; exact H]. }
    destruct (lengthCode v) as [[len0 n] |]; [| exact H].
    destruct (readBits n r1) as [[extra r2] | e]; [| exact H].
    destruct (readDist hd r2) as [[dist r3] | e]; [| exact H].
    destruct (length hist <? N.to_nat dist)%nat; [exact H |].
    apply IH. exact H.
Qed.

Lemma run_fuel_le (fuel fuel' : nat) st final r hist res :
  (fuel <= fuel')%nat ->
  run fuel st final r hist = Some res ->
  run fuel' st final r hist = Some res.
Proof.
  induction 1 as [| fuel' _ IH]; intros H; [exact H |].
  apply run_more_fuel, IH, H.
Qed.

End flate_trailing.

(** X10: the decompression stops at the end of the final block: bytes
    that follow a complete deflate stream are not read, and the stream
    decompresses to the same output with them as without them. *)
Theorem ReadAll_ignores_trailing_bytes (c junk doc : list byte) :
  flate.ReadAll c = Ok doc -> flate.ReadAll (c ++ junk) = Ok doc.
Proof.
  intros Hc. pose proof (ReadAll_run c) as Hr. rewrite Hc in Hr.
  apply (flate_trailing.run_extend junk) in Hr.
  apply (flate_trailing.run_fuel_le _ (flate.steps_for (c ++ junk))) in Hr.
  - pose proof (ReadAll_run (c ++ junk)) as Hr'.
    unfold extend in Hr. cbn [flate.bitbuf flate.input] in Hr.
    congruence.
  - unfold flate.steps_for. rewrite length_app. lia.
Qed.

Lemma ReadAll_ignores_trailing_bytes_witness :
  flate.ReadAll ([xcb; x48; xcd; xc9; xc9; x07; x00] ++ [xde; xad; xbe; xef])
  = Ok (list_byte_of_string "hello").
Proof.
  apply (ReadAll_ignores_trailing_bytes [xcb; x48; xcd; xc9; xc9; x07; x00]
           [xde; xad; xbe; xef] (list_byte_of_string "hello")).
  vm_compute. reflexivity.
Defined.

(** X11: a request written as stored deflate blocks and base64-encoded is
    decoded by the handler to the concatenation of the chunks, which is
    what it hands to [xml.Unmarshal]. *)
Theorem ServeSSO_decodes_stored_stream `{Externals} (m : Middleware)
  (authFn : Authenticator) (w w1 : http.ResponseWriter) (r : http.Request)
  (sess : Session) (chunks : list (list byte)) :
  authFn w r = (w1, Ok sess) ->
  Forall (fun chunk => (N.of_nat (length chunk) < 65536)%N) chunks ->
  url.Get (http.URL_Query r) "SAMLRequest"
  = base64.EncodeToString (storedStream chunks) ->
  DecodeAuthnRequest (url.Get (http.URL_Query r) "SAMLRequest")
  = match xml_Unmarshal (concat chunks) with
    | Ok req => inr req
    | Err e => inl (XMLParseError, e)
    end
  /\ exists rest,
       trace (ServeSSO m authFn w r)
       = [Ev_authFn r;
          Ev_base64_DecodeString (base64.EncodeToString (storedStream chunks));
          Ev_flate_ReadAll (storedStream chunks);
          Ev_xml_Unmarshal (concat chunks)] ++ rest.
Proof.
  intros Hauth Hchunks Hq. split.
  - unfold DecodeAuthnRequest.
    rewrite Hq, DecodeString_EncodeToString, (ReadAll_storedStream _ Hchunks).
    destruct (xml_Unmarshal (concat chunks)); reflexivity.
  - unfold ServeSSO, ServeSSO_body.
    rewrite (call_authFn_step _ _ _ _ w1 (Ok sess)) by exact Hauth.
    cbv zeta. rewrite Hq, DecodeString_EncodeToString, orFail_call_Ok.
    cbn [rw trace app].
    rewrite (ReadAll_storedStream _ Hchunks), orFail_call_Ok.
    cbn [rw trace app].
    repeat next_call; cbn; eexists; reflexivity.
Qed.

Lemma ServeSSO_decodes_stored_stream_witness :
  exists rest,
    trace (ServeSSO Demo.middleware Demo.acceptAll http.NewRecorder
             (http.mkRequest
                (<["SAMLRequest" :=
                     [base64.EncodeToString
                        (storedStream
                           [list_byte_of_string "<Authn";
                            list_byte_of_string "Request/>"])]]> ∅)))
    = [Ev_authFn
         (http.mkRequest
            (<["SAMLRequest" :=
                 [base64.EncodeToString
                    (storedStream
                       [list_byte_of_string "<Authn";
                        list_byte_of_string "Request/>"])]]> ∅));
       Ev_base64_DecodeString
         (base64.EncodeToString
            (storedStream
               [list_byte_of_string "<Authn"; list_byte_of_string "Request/>"]));
       Ev_flate_ReadAll
         (storedStream
            [list_byte_of_string "<Authn"; list_byte_of_string "Request/>"]);
       Ev_xml_Unmarshal
         (concat [list_byte_of_string "<Authn"; list_byte_of_string "Request/>"])]
      ++ rest.
Proof.
  apply (ServeSSO_decodes_stored_stream Demo.middleware Demo.acceptAll
           http.NewRecorder http.NewRecorder _ "alice"
           [list_byte_of_string "<Authn"; list_byte_of_string "Request/>"]).
  - reflexivity.
  - repeat constructor.
  - reflexivity.
Defined.

Lemma ReadAll_storedBlock_truncated_witness :
  flate.ReadAll (firstn 9 (storedBlock (list_byte_of_string "hello")))
  = Err io_ErrUnexpectedEOF.
Proof.
  apply (ReadAll_storedBlock_truncated (list_byte_of_string "hello") 9).
  - reflexivity.
  - cbn. lia.
Defined.

Module base64_alphabet.
Import base64.

Lemma encodeChar_In (v : N) : In (encodeChar (N.land v 63)) encodeStd.
Proof.
  unfold encodeChar. apply nth_In.
  pose proof (base64_facts.digit_lt v).
  change (length encodeStd) with 64%nat. lia.
Qed.

(** Every character of an encoded text is a character of the alphabet
    or the padding. *)
Lemma Encode_alphabet (bs : list byte) :
  Forall (fun c => In c (padChar :: encodeStd)) (Encode bs).
Proof.
  induction bs as [| a | a b | a b c l IH] using base64_facts.list_ind3;
    cbn [Encode]; cbv zeta.
  - constructor.
  - repeat (constructor;
            [first [left; reflexivity | right; apply encodeChar_In] |]).
    constructor.
  - repeat (constructor;
            [first [left; reflexivity | right; apply encodeChar_In] |]).
    constructor.
  - do 4 (constructor; [right; apply encodeChar_In |]). exact IH.
Qed.

Lemma alphabet_unreserved :
  forallb (fun c => unreserved (ascii_of_byte c)) (padChar :: encodeStd) = true.
Proof. vm_compute. reflexivity. Qed.

Lemma HTMLEscapeString_unreserved (c : ascii) (rest : string) :
  unreserved c = true ->
  template.HTMLEscapeString (String c rest)
  = String c (template.HTMLEscapeString rest).
Proof.
  unfold unreserved. intros Hc.
  repeat (apply andb_true_iff in Hc; destruct Hc as [Hc ?]).
  repeat match goal with
         | Hn : negb _ = true |- _ => apply negb_true_iff in Hn
         end.
  cbn [template.HTMLEscapeString].
  repeat match goal with Hn : Ascii.eqb c _ = false |- _ => rewrite Hn; clear Hn end.
  reflexivity.
Qed.

Lemma HTMLEscapeString_alphabet (l : list byte) :
  Forall (fun c => In c (padChar :: encodeStd)) l ->
  template.HTMLEscapeString (string_of_list_byte l) = string_of_list_byte l.
Proof.
  induction 1 as [| c l Hc _ IH]; [reflexivity |].
  change (string_of_list_byte (c :: l))
    with (String (ascii_of_byte c) (string_of_list_byte l)).
  rewrite HTMLEscapeString_unreserved, IH; [reflexivity |].
  pose proof alphabet_unreserved as Ha. rewrite forallb_forall in Ha.
  apply Ha. exact Hc.
Qed.

End base64_alphabet.

(** X13: the payload the handler puts into the form is made of base64
    characters only, so HTML escaping would leave it as it is: the
    missing escaping cannot change the [SAMLResponse] field. *)
Theorem ServeSSO_payload_needs_no_escaping `{Externals} (m : Middleware)
  (authFn : Authenticator) (w : http.ResponseWriter) (r : http.Request)
  (form : redirectForm) :
  In (Ev_template_Execute form) (trace (ServeSSO m authFn w r)) ->
  template.HTMLEscapeString (SAMLResponse form) = SAMLResponse form.
Proof.
  unfold ServeSSO, ServeSSO_body.
  destruct (authFn w r) as [w1 [sess | err]] eqn:Hauth.
  - rewrite (call_authFn_step _ _ _ _ w1 (Ok sess)) by exact Hauth.
    cbv zeta. rewrite Parse_redirectFormTemplate.
    repeat next_call; cbn; intros Hin;
      repeat (destruct Hin as [Hin | Hin]; try discriminate Hin);
      try contradiction.
    injection Hin as <-. cbn [SAMLResponse]. unfold base64.EncodeToString.
    apply base64_alphabet.HTMLEscapeString_alphabet,
      base64_alphabet.Encode_alphabet.
  - rewrite (call_authFn_step _ _ _ _ w1 (Err err)) by exact Hauth.
    cbn. intros [Hin | [Hin | []]]; discriminate Hin.
Qed.

Lemma ServeSSO_payload_needs_no_escaping_witness :
  template.HTMLEscapeString
    (SAMLResponse
       (mkRedirectForm "https://sp.example.com/acs" "s"
          "PGRvYz4KCXJlc3BvbnNlCjwvZG9jPg=="))
  = SAMLResponse
      (mkRedirectForm "https://sp.example.com/acs" "s"
         "PGRvYz4KCXJlc3BvbnNlCjwvZG9jPg==").
Proof.
  apply (ServeSSO_payload_needs_no_escaping Demo.middleware Demo.acceptAll
           http.NewRecorder (Demo.request "s")).
  apply (nth_error_In _ 9). reflexivity.
Defined.

Module base64_padding.
Import base64.

Lemma significant_skipNewlines (l : list byte) :
  significant (skipNewlines l) = significant l.
Proof.
  induction l as [| c l IH]; [reflexivity |].
  cbn [skipNewlines significant].
  destruct (isNewline c) eqn:Hc; [exact IH |].
  cbn [significant]. rewrite Hc. reflexivity.
Qed.

Lemma afterPadding_Ok (rest out res : list byte) :
  afterPadding rest out = Ok res -> significant rest = 0%nat.
Proof.
  unfold afterPadding. intros H.
  rewrite <- significant_skipNewlines.
  destruct (skipNewlines rest); [reflexivity | discriminate].
Qed.

Lemma decode_significant (src : list byte) :
  forall dbuf out res,
    (length dbuf <= 3)%nat ->
    decode src dbuf out = Ok res ->
    exists k, (length dbuf + significant src = 4 * k)%nat.
Proof.
  induction src as [| c rest IH]; intros dbuf out res Hlen H;
    cbn [decode] in H.
  - destruct dbuf; [exists 0%nat; reflexivity | discriminate].
  - cbn [significant]. destruct (decodeMap c) as [v |] eqn:Hv.
    + assert (Hc : isNewline c = false).
      { destruct (isNewline c) eqn:Hc; [| reflexivity].
        rewrite (base64_newlines.decodeMap_newline c Hc) in Hv. discriminate. }
      rewrite Hc.
      destruct (Nat.eqb (length dbuf) 3) eqn:H3.
      * apply Nat.eqb_eq in H3. apply IH in H; [| cbn; lia].
        destruct H as [k Hk]. cbn [length] in Hk. exists (S k). lia.
      * apply Nat.eqb_neq in H3. apply IH in H.
        -- destruct H as [k Hk]. rewrite length_app in Hk. cbn [length] in Hk.
           exists k. lia.
        -- rewrite length_app. cbn [length]. lia.
    + destruct (isNewline c) eqn:Hc; [apply IH in H; assumption |].
      destruct (negb (Byte.eqb c padChar)); [discriminate |].
      destruct (length dbuf) as [| [| [| [| n]]]] eqn:Hd; try discriminate.
      * pose proof (significant_skipNewlines rest) as Hs.
        destruct (skipNewlines rest) as [| c2 rest2]; [discriminate |].
        destruct (Byte.eqb c2 padChar) eqn:Hc2; [| discriminate].
        apply Byte.byte_dec_bl in Hc2. subst c2.
        apply afterPadding_Ok in H. cbn [significant] in Hs.
        change (isNewline padChar) with false in Hs. cbv iota in Hs.
        exists 1%nat. lia.
      * apply afterPadding_Ok in H. exists 1%nat. lia.
Qed.

End base64_padding.

(** X14: [DecodeString] requires padded input: when it succeeds, the
    number of characters of the text that are not line breaks is a
    multiple of four.  A text that has lost its padding is rejected. *)
Theorem DecodeString_needs_padding (s : string) (bs : list byte) :
  base64.DecodeString s = Ok bs ->
  exists k, significant (list_byte_of_string s) = (4 * k)%nat.
Proof.
  unfold base64.DecodeString. intros H.
  apply base64_padding.decode_significant in H; [| cbn; lia].
  exact H.
Qed.

Lemma DecodeString_needs_padding_witness :
  exists k, significant (list_byte_of_string "aGVsbG8=") = (4 * k)%nat.
Proof.
  apply (DecodeString_needs_padding "aGVsbG8=" (list_byte_of_string "hello")).
  reflexivity.
Defined.
